(** * Tortillas: log analysis and test scheduling

    A shallow embedding of [tortillas/log_analyzer.py] (the rule driven
    verdict of one test run), of [run_tests] and the completion path of
    [tortillas/test_runner.py] (the worker slots, requeue on retry), and of
    the choice of the tests and the summary of [tortillas/main.py], with
    the properties the design document states about them and further
    properties that the code shows.

    Python values are represented as follows.
    - [str] is [string]; a character is read as the code point of the same
      number (U+0000 to U+00FF).
    - [int] is [Z].
    - [list] is [list]; a [dict] iterated with [.items()] is an association
      list in insertion order.
    - [None] for an optional value is [None] of [option].
    - A raised exception is the [Raise] outcome of the [outcome] monad. *)

From Stdlib Require Import ZArith String Ascii List Bool Lia DecimalString.
From stdpp Require Import base tactics option list functions gmap strings sorting.

Open Scope string_scope.
Open Scope list_scope.
Open Scope Z_scope.

(** * Exceptions *)

Inductive exn : Type :=
| StopIteration
| KeyError (key : string)
| IndexError
| ValueError.

Inductive outcome (A : Type) : Type :=
| Return (a : A)
| Raise (e : exn).

Arguments Return {A} a.
Arguments Raise {A} e.

#[global] Instance outcome_ret : MRet outcome := fun A a => Return a.

#[global] Instance outcome_bind : MBind outcome := fun A B k m =>
  match m with
  | Return a => k a
  | Raise e => Raise e
  end.

(** * The builtins of Python the analyzer relies on *)

Module Py.

Definition ord (c : ascii) : N := N_of_ascii c.
Definition chr (n : N) : ascii := ascii_of_N n.

Definition LF : ascii := chr 10.
Definition CR : ascii := chr 13.
Definition TAB : ascii := chr 9.
Definition SQUOTE : ascii := chr 39.
Definition DQUOTE : ascii := chr 34.
Definition BACKSLASH : ascii := chr 92.

(** [len(s)] *)
Definition len (s : string) : Z := Z.of_nat (String.length s).

(** The bound of a slice, as [PySlice_AdjustIndices] computes it for a
    step of one: a negative index counts from the end, and the result is
    clipped to [0, len]. *)
Definition adjust_index (length i : Z) : Z :=
  if i <? 0 then Z.max 0 (i + length) else Z.min i length.

(** [s[start:stop]] *)
Definition slice (s : string) (start stop : Z) : string :=
  let lo := adjust_index (len s) start in
  let hi := adjust_index (len s) stop in
  if lo <? hi then substring (Z.to_nat lo) (Z.to_nat (hi - lo)) s else "".

(** [s.startswith(p)] *)
Definition startswith (s p : string) : bool := String.prefix p s.

(** [sep.join(l)] *)
Definition join (sep : string) (l : list string) : string := String.concat sep l.

(** [l[0:1]] on a list *)
Definition slice01 {A : Type} (l : list A) : list A :=
  match l with
  | [] => []
  | x :: _ => [x]
  end.

(** ** [repr] of a [str] *)

Definition hexdigit (n : N) : ascii :=
  if (n <? 10)%N then chr (48 + n) else chr (87 + n).

Definition isprintable (c : ascii) : bool :=
  let n := ord c in
  ((32 <=? n) && (n <? 127) || (161 <=? n) && negb (n =? 173))%N.

Definition hex_escape (c : ascii) : string :=
  String BACKSLASH (String "x" (String (hexdigit (ord c / 16)) (String (hexdigit (ord c mod 16)) ""))).

(** One character of the body of [repr(s)], [quote] being the chosen
    delimiter. *)
Definition repr_char (quote c : ascii) : string :=
  if Ascii.eqb c quote || Ascii.eqb c BACKSLASH then String BACKSLASH (String c "")
  else if Ascii.eqb c TAB then String BACKSLASH "t"
  else if Ascii.eqb c LF then String BACKSLASH "n"
  else if Ascii.eqb c CR then String BACKSLASH "r"
  else if ((ord c <? 32) || (ord c =? 127))%N then hex_escape c
  else if (ord c <? 127)%N then String c ""
  else if negb (isprintable c) then hex_escape c
  else String c "".

Fixpoint repr_body (quote : ascii) (s : string) : string :=
  match s with
  | EmptyString => ""
  | String c r => repr_char quote c +:+ repr_body quote r
  end.

Fixpoint contains (c : ascii) (s : string) : bool :=
  match s with
  | EmptyString => false
  | String d r => Ascii.eqb d c || contains c r
  end.

(** The delimiter is the double quote exactly when the text holds a
    single quote and no double quote. *)
Definition repr_quote (s : string) : ascii :=
  if contains SQUOTE s && negb (contains DQUOTE s) then DQUOTE else SQUOTE.

Definition repr (s : string) : string :=
  String (repr_quote s) (repr_body (repr_quote s) s +:+ String (repr_quote s) "").

(** The character a piece of a [repr] body starts with: the inverse of
    [repr_char], by which [repr] is shown to lose nothing. *)
Definition hexvalue (c : ascii) : N :=
  if (ord c <? 58)%N then (ord c - 48)%N else (ord c - 87)%N.

Definition unrepr_head (s : string) : option ascii :=
  match s with
  | EmptyString => None
  | String c r =>
      if Ascii.eqb c BACKSLASH then
        match r with
        | EmptyString => None
        | String d r' =>
            if Ascii.eqb d "x" then
              match r' with
              | String h1 (String h2 _) => Some (chr (16 * hexvalue h1 + hexvalue h2))
              | _ => None
              end
            else if Ascii.eqb d "t" then Some TAB
            else if Ascii.eqb d "n" then Some LF
            else if Ascii.eqb d "r" then Some CR
            else Some d
        end
      else Some c
  end.

(** ** [int] of a [str] and [str] of an [int] *)

(** [Py_ISSPACE] *)
Definition isspace (c : ascii) : bool :=
  ((9 <=? ord c) && (ord c <=? 13) || (ord c =? 32))%N.

(** [Py_UNICODE_ISSPACE] on code points from 127 upwards *)
Definition unicode_isspace_high (c : ascii) : bool :=
  ((ord c =? 133) || (ord c =? 160))%N.

Definition is_ascii (s : string) : bool :=
  forallb (fun c => (ord c <? 128)%N) (list_ascii_of_string s).

(** [_PyUnicode_TransformDecimalAndSpaceToASCII]: a space beyond ASCII
    becomes a blank; at any other character from 127 upwards (none of
    them is a decimal digit below U+0100) the text is cut after a
    question mark. *)
Fixpoint transform_space (s : string) : string :=
  match s with
  | EmptyString => ""
  | String c r =>
      if (ord c <? 127)%N then String c (transform_space r)
      else if unicode_isspace_high c then String " " (transform_space r)
      else "?"
  end.

Definition to_ascii (s : string) : string :=
  if is_ascii s then s else transform_space s.

Fixpoint skip_space (s : string) : string :=
  match s with
  | EmptyString => ""
  | String c r => if isspace c then skip_space r else s
  end.

Definition digit_value (c : ascii) : option Z :=
  if ((48 <=? ord c) && (ord c <=? 57))%N then Some (Z.of_N (ord c) - 48) else None.

(** The scan of [long_from_string_base]: digits and single underscores
    between them.  [prev_us] tells whether the previous character was an
    underscore; the result is the value, the number of digits and the
    rest of the text. *)
Fixpoint scan_digits (prev_us : bool) (acc : Z) (digits : nat) (s : string)
  : option (Z * nat * string) :=
  match s with
  | EmptyString => if prev_us then None else Some (acc, digits, "")
  | String c r =>
      match digit_value c with
      | Some d => scan_digits false (10 * acc + d) (S digits) r
      | None =>
          if Ascii.eqb c "_" then
            if prev_us then None else scan_digits true acc digits r
          else if prev_us then None else Some (acc, digits, s)
      end
  end.

Section Limits.

(** The interpreter's limit on the number of digits of a conversion
    between [int] and [str] ([sys.get_int_max_str_digits()]); zero
    means no limit. *)
Variable max_str_digits : nat.

(** [_PY_LONG_MAX_STR_DIGITS_THRESHOLD] *)
Definition threshold : nat := 640%nat.

(** The test of [long_from_string_base] on the number of digits read. *)
Definition too_many_digits (digits : nat) : bool :=
  (threshold <? digits)%nat && (0 <? max_str_digits)%nat && (max_str_digits <? digits)%nat.

(** [PyLong_FromString] in base ten. [None] stands for [ValueError]. *)
Definition long_from_string (s : string) : option Z :=
  let s1 := skip_space s in
  let '(negative, s2) :=
    match s1 with
    | String "+" r => (false, r)
    | String "-" r => (true, r)
    | _ => (false, s1)
    end in
  match s2 with
  | String "_" _ => None
  | _ =>
      match scan_digits false 0 0 s2 with
      | None => None
      | Some (v, digits, rest) =>
          match digits, skip_space rest with
          | O, _ => None
          | _, EmptyString =>
              if too_many_digits digits then None
              else Some (if negative then - v else v)
          | _, String _ _ => None
          end
      end
  end.

(** [int(s)] for a [str]; [None] stands for [ValueError]. *)
Definition int (s : string) : option Z := long_from_string (to_ascii s).

(** [str(n)] for an [int]: the decimal digits, after a minus sign for a
    negative number; [ValueError] beyond the limit. *)
Definition str (n : Z) : outcome string :=
  let digits := NilZero.string_of_uint (N.to_uint (Z.abs_N n)) in
  let text := if n <? 0 then String "-" digits else digits in
  if (threshold <? String.length text)%nat && (0 <? max_str_digits)%nat
     && (max_str_digits <? String.length digits)%nat
  then Raise ValueError
  else Return text.

(** [[str(e) for e in l]], as [join] consumes it *)
Fixpoint str_all (l : list Z) : outcome (list string) :=
  match l with
  | [] => Return []
  | e :: r => s ← str e; t ← str_all r; Return (s :: t)
  end.

End Limits.

End Py.

(** * [tortillas/log_analyzer.py] *)

Module InterruptWatchdog.

(** Modelled from the spec: the enumeration [InterruptWatchdog.Status] of
    [qemu_interface], a module that is not among the sources: the outcome
    of one wait on the interrupt trace. *)
Inductive Status : Type := WAITING | FOUND | TIMEOUT | STOPPED.

#[global] Instance Status_eq_dec : EqDecision Status.
Proof. solve_decision. Defined.

End InterruptWatchdog.

(** The outcome of a test run. *)
Inductive TestStatus : Type :=
| PANIC
| FAILED
| TIMEOUT
| SUCCESS
| DISABLED
| NOT_RUN.

#[global] Instance TestStatus_eq_dec : EqDecision TestStatus.
Proof. solve_decision. Defined.

(** [TestStatus[name]] *)
Definition TestStatus_getitem (name : string) : outcome TestStatus :=
  if String.eqb name "PANIC" then Return PANIC
  else if String.eqb name "FAILED" then Return FAILED
  else if String.eqb name "TIMEOUT" then Return TIMEOUT
  else if String.eqb name "SUCCESS" then Return SUCCESS
  else if String.eqb name "DISABLED" then Return DISABLED
  else if String.eqb name "NOT_RUN" then Return NOT_RUN
  else Raise (KeyError name).

(** The attributes of [TestSpec] ([test_specification]) that the analyzer
    reads. *)
Record TestSpec : Type := {
  disabled : bool;
  expect_timeout : bool;
  expect_stdout : option string;
  expect_exit_codes : option (list Z)
}.

(** The attributes of [AnalyzeConfigEntry] ([tortillas_config]) that the
    analyzer reads. *)
Record AnalyzeConfigEntry : Type := {
  name : string;
  mode : string;
  set_status : option string
}.

(** The result of a test run. *)
Record TestResult : Type := {
  status : TestStatus;
  errors : list string;
  retry : bool
}.

#[global] Instance TestResult_eq_dec : EqDecision TestResult.
Proof. solve_decision. Defined.

(** [TestResult(status)] *)
Definition TestResult_new (st : TestStatus) : TestResult :=
  {| status := st; errors := []; retry := false |}.

Definition with_status (self : TestResult) (st : TestStatus) : TestResult :=
  {| status := st; errors := errors self; retry := retry self |}.

Definition errors_append (self : TestResult) (error : string) : TestResult :=
  {| status := status self; errors := errors self ++ [error]; retry := retry self |}.

Definition with_retry (self : TestResult) (b : bool) : TestResult :=
  {| status := status self; errors := errors self; retry := b |}.

Definition _set_status (self : TestResult) (st : option TestStatus) : TestResult :=
  match st with
  | None => self
  | Some s => with_status self s
  end.

(** Handle config mode add_as_error, set [status], if supplied. *)
Definition add_errors (self : TestResult) (errs : list string) (st : option TestStatus)
  : TestResult :=
  match errs with
  | [] => self
  | _ => _set_status (fold_left errors_append errs self) st
  end.

(** How the loop over the exit codes ends: by the [return] in its body, or
    by running out of codes. *)
Inductive loop_end : Type :=
| Returned (self : TestResult)
| Completed (self : TestResult) (unexpected_exit_codes : bool).

Section Analyzer.

Variable max_str_digits : nat.

(** The marker of [constants], a module that is not among the sources. *)
Variable TORTILLAS_EXPECT_PREFIX : string.

(** The loop of [check_expect_stdout]; [i] is the index of the first line
    of [logs] in the whole bucket, [total] the length of the bucket. *)
Fixpoint expect_stdout_loop (total i : Z) (logs : list string) (actual_stdout : list string)
  : list string :=
  match logs with
  | [] => actual_stdout
  | line :: rest =>
      if negb (Py.startswith line TORTILLAS_EXPECT_PREFIX) then
        expect_stdout_loop total (i + 1) rest actual_stdout
      else if i =? total - 1 then
        expect_stdout_loop total (i + 1) rest
          (actual_stdout ++ [Py.slice line (Py.len TORTILLAS_EXPECT_PREFIX) (-2)])
      else
        expect_stdout_loop total (i + 1) rest
          (actual_stdout ++ [Py.slice line (Py.len TORTILLAS_EXPECT_PREFIX) (-1)])
  end.

Definition actual_stdout_of (logs : list string) : string :=
  Py.join "" (expect_stdout_loop (Z.of_nat (length logs)) 0 logs []).

(** Handle config mode expect_stdout, set [status], if supplied. *)
Definition check_expect_stdout (self : TestResult) (logs : list string)
    (test_spec : TestSpec) (st : option TestStatus) : TestResult :=
  match expect_stdout test_spec with
  | None => self
  | Some EmptyString => self
  | Some want =>
      let actual := Py.repr (actual_stdout_of logs) in
      let expected := Py.repr want in
      if negb (String.eqb actual expected) then
        let self := errors_append self ("Expected output:" +:+ String Py.LF expected) in
        let self := errors_append self ("Actual output:" +:+ String Py.LF actual) in
        _set_status self st
      else self
  end.

(** The [for] loop of [check_exit_codes]. *)
Fixpoint exit_codes_loop (self : TestResult) (expect_exit_codes : list Z)
    (unexpected_exit_codes : bool) (exit_codes : list string) : loop_end :=
  match exit_codes with
  | [] => Completed self unexpected_exit_codes
  | exit_code :: rest =>
      match Py.int max_str_digits exit_code with
      | None =>
          let self := errors_append self ("Failed to parse exit code " +:+ exit_code) in
          let self := with_status self FAILED in
          let self := with_retry self true in
          Returned self
      | Some exit_code_int =>
          if bool_decide (exit_code_int ∉ expect_exit_codes) then
            exit_codes_loop (errors_append self ("Unexpected exit code " +:+ exit_code))
              expect_exit_codes true rest
          else
            exit_codes_loop self expect_exit_codes unexpected_exit_codes rest
      end
  end.

(** [check_exit_codes] from the loop on. *)
Definition check_parsed_codes (self : TestResult) (exit_codes : list string)
    (expect_exit_codes : list Z) (st : option TestStatus) : outcome TestResult :=
  match exit_codes_loop self expect_exit_codes false exit_codes with
  | Returned self => Return self
  | Completed self false => Return self
  | Completed self true =>
      strs ← Py.str_all max_str_digits expect_exit_codes;
      let expected_codes := Py.join ", " strs in
      let self := errors_append self ("Expected exit code(s): " +:+ expected_codes) in
      Return (_set_status self st)
  end.

(** Handle config mode exit_codes, set [status], if supplied. *)
Definition check_exit_codes (self : TestResult) (exit_codes : list string)
    (expect_exit_codes : list Z) (st : option TestStatus) : outcome TestResult :=
  if bool_decide (status self = PANIC) then Return self
  else
    match exit_codes with
    | [] =>
        let self := errors_append self "Missing exit code!" in
        if bool_decide (status self = SUCCESS) then Return (with_status self FAILED)
        else check_parsed_codes self exit_codes expect_exit_codes st
    | _ => check_parsed_codes self exit_codes expect_exit_codes st
    end.

(** What [check_expect_stdout] keeps of a line that starts with the marker:
    the line without the marker and without its last [k] characters. *)
Definition strip_marker (k : nat) (line : string) : string :=
  substring (String.length TORTILLAS_EXPECT_PREFIX)
    (String.length line - String.length TORTILLAS_EXPECT_PREFIX - k) line.

(** The pieces [check_expect_stdout] joins, told in one go: of the lines that
    start with the marker, the line at the last index of the bucket loses
    its last two characters and every other line its last one. *)
Definition stripped_lines (logs : list string) : list string :=
  match last logs with
  | None => []
  | Some final =>
      map (strip_marker 1)
        (List.filter (fun line => Py.startswith line TORTILLAS_EXPECT_PREFIX) (removelast logs))
      ++ (if Py.startswith final TORTILLAS_EXPECT_PREFIX then [strip_marker 2 final] else [])
  end.

(** The errors [check_exit_codes] appends for exit codes that all parse:
    one for each code that is not expected. *)
Fixpoint unexpected_errors (expect_exit_codes : list Z) (exit_codes : list string)
  : list string :=
  match exit_codes with
  | [] => []
  | exit_code :: rest =>
      match Py.int max_str_digits exit_code with
      | Some exit_code_int =>
          if bool_decide (exit_code_int ∉ expect_exit_codes)
          then ("Unexpected exit code " +:+ exit_code) :: unexpected_errors expect_exit_codes rest
          else unexpected_errors expect_exit_codes rest
      | None => []
      end
  end.

(** This class is used to analyze log_data parsed by the LogParser. *)
Record LogAnalyzer : Type := {
  test_spec : TestSpec;
  config : list AnalyzeConfigEntry
}.

(** [next] over the entries of the wanted name *)
Fixpoint find_entry (entries : list AnalyzeConfigEntry) (wanted : string)
  : outcome AnalyzeConfigEntry :=
  match entries with
  | [] => Raise StopIteration
  | entry :: rest =>
      if String.eqb (name entry) wanted then Return entry else find_entry rest wanted
  end.

Definition _get_config_entry_by_name (self : LogAnalyzer) (wanted : string)
  : outcome AnalyzeConfigEntry :=
  find_entry (config self) wanted.

(** The status an entry sets: none when [set_status] is [None] or empty,
    else the member of that name. *)
Definition entry_status (config_entry : AnalyzeConfigEntry) : outcome (option TestStatus) :=
  match set_status config_entry with
  | None => Return None
  | Some EmptyString => Return None
  | Some member => st ← TestStatus_getitem member; Return (Some st)
  end.

(** [expect_exit_codes or [0]] *)
Definition expect_exit_codes_or_default (spec : TestSpec) : list Z :=
  match expect_exit_codes spec with
  | None => [0]
  | Some [] => [0]
  | Some codes => codes
  end.

(** The body of the loop of [analyze] for one item of [log_data]. *)
Definition analyze_entry (self : LogAnalyzer) (result : TestResult)
    (entry_name : string) (logs : list string) : outcome TestResult :=
  config_entry ← _get_config_entry_by_name self entry_name;
  st ← entry_status config_entry;
  if String.eqb (mode config_entry) "add_as_error" then
    Return (add_errors result logs st)
  else if String.eqb (mode config_entry) "add_as_error_join" then
    Return (add_errors result
              [("```" +:+ String Py.LF (Py.join "" logs)) +:+ ("```" +:+ String Py.LF "")] st)
  else if String.eqb (mode config_entry) "add_as_error_last" then
    Return (add_errors result (Py.slice01 logs) st)
  else if String.eqb (mode config_entry) "retry" then
    let result := add_errors result ["Retry caused by " +:+ name config_entry] None in
    Return (with_retry result true)
  else if String.eqb (mode config_entry) "expect_stdout" then
    Return (check_expect_stdout result logs (test_spec self) st)
  else if String.eqb (mode config_entry) "exit_codes" then
    check_exit_codes result logs (expect_exit_codes_or_default (test_spec self)) st
  else Return result.

Fixpoint analyze_loop (self : LogAnalyzer) (result : TestResult)
    (log_data : list (string * list string)) : outcome TestResult :=
  match log_data with
  | [] => Return result
  | (entry_name, logs) :: rest =>
      result ← analyze_entry self result entry_name logs;
      analyze_loop self result rest
  end.

(** Analyze [log_data] using the analyze configuration. *)
Definition analyze (self : LogAnalyzer) (log_data : list (string * list string))
    (ir_watchdog_status : InterruptWatchdog.Status) : outcome TestResult :=
  let result := TestResult_new SUCCESS in
  if disabled (test_spec self) then Return (with_status result DISABLED)
  else
    let result :=
      if bool_decide (ir_watchdog_status = InterruptWatchdog.STOPPED) then
        add_errors result ["Test killed, because no more interrupts were coming"] None
      else result in
    let result :=
      if bool_decide (ir_watchdog_status = InterruptWatchdog.TIMEOUT)
         && negb (expect_timeout (test_spec self)) then
        add_errors result ["Test execution timeout"] (Some TIMEOUT)
      else result in
    analyze_loop self result log_data.

(** A rule over a bucket that sets neither the status nor the retry flag,
    whatever the result it is applied to. *)
Definition sets_nothing (self : LogAnalyzer) (entry_name : string) (logs : list string)
  : Prop :=
  forall result : TestResult,
    exists result' : TestResult,
      analyze_entry self result entry_name logs = Return result' /\
      status result' = status result /\ retry result' = retry result.

(** A rule over a bucket that leaves a run that timed out as it is, but for
    the errors: applied to a result with the status TIMEOUT and no retry
    flag, it returns one with the status TIMEOUT and no retry flag. *)
Definition stays_timed_out (self : LogAnalyzer) (entry_name : string) (logs : list string)
  : Prop :=
  forall result : TestResult,
    status result = TIMEOUT ->
    retry result = false ->
    exists result' : TestResult,
      analyze_entry self result entry_name logs = Return result' /\
      status result' = TIMEOUT /\ retry result' = false.

End Analyzer.

(** An analyzer to try the analysis on: a test that expects no timeout and
    the exit code 0, with a rule for panics, one that asks for a retry when
    the machine died, and one for the exit codes. *)
Definition demo_analyzer : LogAnalyzer :=
  {| test_spec := {| disabled := false; expect_timeout := false;
                     expect_stdout := None; expect_exit_codes := None |};
     config := [ {| name := "panic"; mode := "add_as_error"; set_status := Some "PANIC" |};
                 {| name := "qemu_died"; mode := "retry"; set_status := None |};
                 {| name := "exit_codes"; mode := "exit_codes";
                    set_status := Some "FAILED" |} ] |}.

(** * [tortillas/test_runner.py] *)

Module ProgressBar.

(** The counters of the progress bar that the runner names. *)
Inductive Counter : Type := RUNNING | FAIL | SUCCESS.

End ProgressBar.

Module Runner.

(** The attributes of [TestResult] (module [test]) that the runner reads and
    writes; of the statuses (module [constants]) it names SUCCESS. *)
Record TestResult : Type := {
  status : TestStatus;
  errors : list string;
  retry : bool;
  panic : bool
}.

(** The attributes of [Test] (module [test]) that the runner reads and
    writes; [result] is the one that changes. *)
Record Test : Type := {
  name : string;
  run_number : Z;
  result : TestResult
}.

(** A [Test] object is shared by the list of all tests, the queue and the
    worker that runs it: it is held by reference. *)
Definition ref : Type := nat.

#[global] Instance ref_eq_dec : EqDecision ref := Nat.eq_dec.

(** The calls the runner makes to its collaborators (progress bar,
    loggers), in the order they are made. *)
Inductive call : Type :=
| create_run_tests_counters (total : Z)
| update_counter (args : list ProgressBar.Counter) (incr : option Z)
| get_logger (logger : string)
| logger_info (logger message : string).

(** What [run_tests] and its two closures share: the [Test] objects, the
    queue, the workers by the [repr] of their test, and the calls made so
    far.  [threads] is no variable of the program: it lists the workers
    that [run_test] started and that have yet to call back, the ones that
    can still write a result and make their callback.  A worker that has
    called back is not in it, though its thread may live on: when the
    machine is dead [_run] calls back inside [with QemuInterface] and
    leaves the session afterwards, when its test may already be queued and
    started again.  It touches nothing of what is shared any more. *)
Record state : Type := {
  heap : ref -> Test;
  test_queue : list ref;
  running_tests : gmap string ref;
  threads : list ref;
  calls : list call
}.

Definition with_heap (h : ref -> Test) (s : state) : state :=
  {| heap := h; test_queue := test_queue s; running_tests := running_tests s;
     threads := threads s; calls := calls s |}.

Definition with_test_queue (q : list ref) (s : state) : state :=
  {| heap := heap s; test_queue := q; running_tests := running_tests s;
     threads := threads s; calls := calls s |}.

Definition with_running_tests (m : gmap string ref) (s : state) : state :=
  {| heap := heap s; test_queue := test_queue s; running_tests := m;
     threads := threads s; calls := calls s |}.

Definition with_threads (t : list ref) (s : state) : state :=
  {| heap := heap s; test_queue := test_queue s; running_tests := running_tests s;
     threads := t; calls := calls s |}.

(** One more call. *)
Definition emit (c : call) (s : state) : state :=
  {| heap := heap s; test_queue := test_queue s; running_tests := running_tests s;
     threads := threads s; calls := calls s ++ [c] |}.

(** [test.result = r] *)
Definition set_result (test : ref) (r : TestResult) (s : state) : state :=
  let t := heap s test in
  with_heap (<[test := {| name := name t; run_number := run_number t; result := r |}]> (heap s)) s.

(** [test.result.retry = b] *)
Definition set_retry (r : TestResult) (b : bool) : TestResult :=
  {| status := status r; errors := errors r; retry := b; panic := panic r |}.

(** A list without the first occurrence of [x]. *)
Fixpoint remove_first (x : ref) (l : list ref) : list ref :=
  match l with
  | [] => []
  | y :: r => if bool_decide (y = x) then r else y :: remove_first x r
  end.

(** A call that counts a run as over, passed or failed. *)
Definition counts_terminal (c : call) : bool :=
  match c with
  | update_counter (ProgressBar.SUCCESS :: _) _ => true
  | update_counter (ProgressBar.FAIL :: _) _ => true
  | _ => false
  end.




Section Runner.

(** [TestResult(name)] and [repr(test)], of module [test], a module that is
    not among the sources. *)
Variable TestResult_new : string -> TestResult.
Variable Test_repr : Test -> string.

(** The closure [thread_callback] of [run_tests]; the lock makes it one
    step. *)
Definition thread_callback (test : ref) (s : state) : outcome state :=
  let key := Test_repr (heap s test) in
  match running_tests s !! key with
  | None => Raise (KeyError key)
  | Some _ =>
      let s := with_running_tests (delete key (running_tests s)) s in
      if retry (result (heap s test)) then
        let s := emit (get_logger (Test_repr (heap s test))) s in
        let s :=
          if panic (result (heap s test)) then
            let panic_text := Py.join "" (errors (result (heap s test))) in
            emit (logger_info (Test_repr (heap s test))
                    ("Restarting test, because of " +:+ panic_text)) s
          else s in
        let s := set_result test (TestResult_new (name (heap s test))) s in
        let s := emit (update_counter [ProgressBar.RUNNING] (Some (-1))) s in
        let s := with_test_queue (test_queue s ++ [test]) s in
        Return s
      else
        let counter_type :=
          if bool_decide (status (result (heap s test)) = SUCCESS)
          then ProgressBar.SUCCESS else ProgressBar.FAIL in
        Return (emit (update_counter [counter_type; ProgressBar.RUNNING] None) s)
  end.

(** The closure [run_test] of [run_tests]: the last test of the queue gets a
    worker. *)
Definition run_test (s : state) : outcome state :=
  match last (test_queue s) with
  | None => Raise IndexError
  | Some test =>
      let s := with_test_queue (removelast (test_queue s)) s in
      let s := emit (update_counter [ProgressBar.RUNNING] None) s in
      let s := with_running_tests (<[Test_repr (heap s test) := test]> (running_tests s)) s in
      let s := with_threads (test :: threads s) s in
      Return s
  end.

(** [_run], as far as [test.result] and the callback go.  [qemu_alive] is
    the answer of [qemu.is_alive()]; [session] is what the run, the parser
    and [test.result.analyze] make of the result when the machine is
    alive. *)
Definition _run (test : ref) (callback : option (ref -> state -> outcome state))
    (qemu_alive : bool) (session : TestResult -> TestResult) (s : state) : outcome state :=
  if negb qemu_alive then
    let s := set_result test (set_retry (result (heap s test)) true) s in
    match callback with
    | Some cb => cb test s
    | None => Return s
    end
  else
    let s := set_result test (session (result (heap s test))) s in
    match callback with
    | Some cb => cb test s
    | None => Return s
    end.

(** The state [run_tests] starts from. *)
Definition run_tests_init (h : ref -> Test) (tests : list ref) : state :=
  {| heap := h; test_queue := tests; running_tests := ∅; threads := [];
     calls := [create_run_tests_counters (Z.of_nat (length tests))] |}.

(** The steps of [run_tests] and its workers: the main thread starts a
    worker; a worker that has yet to call back writes the result of its own
    test; such a worker calls back, and is from then on not among the
    workers that have yet to call back.  What its thread does after the
    callback is no step: it changes nothing of the state. *)
Inductive step : state -> state -> Prop :=
| step_run_test s s' :
    run_test s = Return s' ->
    step s s'
| step_write s test r :
    test ∈ threads s ->
    step s (set_result test r s)
| step_callback s test s' :
    test ∈ threads s ->
    thread_callback test s = Return s' ->
    step s (with_threads (remove_first test (threads s')) s').

Inductive reachable (h : ref -> Test) (tests : list ref) : state -> Prop :=
| reachable_init : reachable h tests (run_tests_init h tests)
| reachable_step s s' : reachable h tests s -> step s s' -> reachable h tests s'.

(** ** The main thread of [run_tests] *)

(** [config.threads] *)
Variable config_threads : Z.

(** Where the main thread stands.  Only [run_test] and the callback take the
    lock: each read of the queue or of the workers outside them is a step
    of its own, and workers may step in between.  A read that falls within
    a callback sees the workers as they are after it (the callback removes
    its worker first) and the queue as it is before it (the callback
    appends last), so it is a read after, or before, the callback taken as
    one step. *)
Inductive main_pc : Type :=
| Booting (rounds : nat)
| BootStarting (rounds : nat)
| AtWhileQueue
| AtWhileRunning
| AtRefresh
| AtIfQueue
| AtIfSlots
| Starting
| Finished.

(** The steps of the main thread and of the workers that have yet to call
    back; as in [step], a worker leaves [threads] with its callback, not
    with the end of its thread.
    - [Booting n]: the first loop has [n] rounds to go and reads the queue;
      [BootStarting n] calls [run_test], with [n] rounds to go after it.
    - [AtWhileQueue], [AtWhileRunning]: the two reads of
      [while test_queue or running_tests].
    - [AtRefresh]: [progress_bar.refresh()], which redraws and is not
      recorded among the calls.
    - [AtIfQueue]: [if not test_queue], then the sleep and [continue].
    - [AtIfSlots]: [if len(running_tests) < config.threads].
    - [Starting]: the call of [run_test], then the sleep. *)
Inductive sched : main_pc * state -> main_pc * state -> Prop :=
| sched_boot_done s :
    sched (Booting 0, s) (AtWhileQueue, s)
| sched_boot_skip n s :
    test_queue s = [] ->
    sched (Booting (S n), s) (Booting n, s)
| sched_boot_found n s :
    test_queue s <> [] ->
    sched (Booting (S n), s) (BootStarting n, s)
| sched_boot_start n s s' :
    run_test s = Return s' ->
    sched (BootStarting n, s) (Booting n, s')
| sched_while_queue s :
    test_queue s <> [] ->
    sched (AtWhileQueue, s) (AtRefresh, s)
| sched_while_queue_empty s :
    test_queue s = [] ->
    sched (AtWhileQueue, s) (AtWhileRunning, s)
| sched_while_running s :
    running_tests s <> ∅ ->
    sched (AtWhileRunning, s) (AtRefresh, s)
| sched_while_exit s :
    running_tests s = ∅ ->
    sched (AtWhileRunning, s) (Finished, s)
| sched_refresh s :
    sched (AtRefresh, s) (AtIfQueue, s)
| sched_if_queue_empty s :
    test_queue s = [] ->
    sched (AtIfQueue, s) (AtWhileQueue, s)
| sched_if_queue s :
    test_queue s <> [] ->
    sched (AtIfQueue, s) (AtIfSlots, s)
| sched_slots_free s :
    Z.of_nat (size (running_tests s)) < config_threads ->
    sched (AtIfSlots, s) (Starting, s)
| sched_slots_full s :
    ~ Z.of_nat (size (running_tests s)) < config_threads ->
    sched (AtIfSlots, s) (AtWhileQueue, s)
| sched_start s s' :
    run_test s = Return s' ->
    sched (Starting, s) (AtWhileQueue, s')
| sched_write pc s test r :
    test ∈ threads s ->
    sched (pc, s) (pc, set_result test r s)
| sched_callback pc s test s' :
    test ∈ threads s ->
    thread_callback test s = Return s' ->
    sched (pc, s) (pc, with_threads (remove_first test (threads s')) s').

(** What [run_tests] can reach from its start: the first loop is
    [range(config.threads)]. *)
Inductive sched_reachable (h : ref -> Test) (tests : list ref) : main_pc * state -> Prop :=
| sched_reachable_init :
    sched_reachable h tests (Booting (Z.to_nat config_threads), run_tests_init h tests)
| sched_reachable_step c c' :
    sched_reachable h tests c -> sched c c' -> sched_reachable h tests c'.

(** The slots the main thread counts on where it stands. *)
Definition slots_wanted (pc : main_pc) : nat :=
  match pc with
  | Booting rounds => rounds
  | BootStarting rounds => S rounds
  | Starting => 1%nat
  | _ => 0%nat
  end.

(** The workers that have yet to call back, as [run_test] registers them:
    each under the [repr] of its test, which is that of the test as it was
    at the start. *)
Definition registered (h : ref -> Test) (workers : list ref) : gmap string ref :=
  list_to_map ((fun test => (Test_repr (h test), test)) <$> workers).

(** What the runner keeps, given that [repr] tells the tests apart: no test
    is twice in the queue and with the workers that have yet to call back
    taken together, all of them are tests of the run, the tests keep their
    name and run number, and [running_tests] holds these workers and no
    other. *)
Definition well_registered (h : ref -> Test) (tests : list ref) (s : state) : Prop :=
  NoDup (test_queue s ++ threads s) /\
  (forall test : ref, test ∈ test_queue s ++ threads s -> test ∈ tests) /\
  (forall test : ref,
     name (heap s test) = name (h test) /\ run_number (heap s test) = run_number (h test)) /\
  running_tests s = registered h (threads s).

(** No worker has yet to call back and the tests of [queue] wait; and one
    worker, which runs [test] and is registered under its [repr], has yet
    to call back while those of [queue] wait. *)
Definition idle (queue : list ref) (s : state) : Prop :=
  test_queue s = queue /\ threads s = [] /\ running_tests s = ∅.

Definition busy (queue : list ref) (test : ref) (s : state) : Prop :=
  test_queue s = queue /\ threads s = [test] /\
  running_tests s = <[Test_repr (heap s test) := test]> ∅.

End Runner.

(** Every test is in the queue, or with a worker that has yet to call
    back, or its result has no retry flag. *)
Definition settled (tests : list ref) (s : state) : Prop :=
  forall test : ref,
    test ∈ tests ->
    test ∈ test_queue s \/ test ∈ threads s \/ retry (result (heap s test)) = false.

(** A small run to try the runner on: the tests "fork" and "mult"; "mult" is
    started first, and its worker writes either a result that asks for a
    retry or one that passed. *)
Definition demo_fresh (test_name : string) : TestResult :=
  {| status := NOT_RUN; errors := []; retry := false; panic := false |}.

Definition demo_repr (t : Test) : string := name t +:+ "-0".

Definition demo_heap (test : ref) : Test :=
  match test with
  | O => {| name := "mult"; run_number := 0; result := demo_fresh "mult" |}
  | _ => {| name := "fork"; run_number := 0; result := demo_fresh "fork" |}
  end.

Definition demo_init : state := run_tests_init demo_heap [1%nat; 0%nat].

Definition demo_started : state :=
  {| heap := demo_heap; test_queue := [1%nat];
     running_tests := <[ "mult-0" := 0%nat ]> ∅; threads := [0%nat];
     calls := [create_run_tests_counters 2; update_counter [ProgressBar.RUNNING] None] |}.

Definition demo_failed : state :=
  set_result 0%nat
    {| status := FAILED; errors := ["qemu died"]; retry := true; panic := false |}
    demo_started.

Definition demo_passed : state :=
  set_result 0%nat
    {| status := SUCCESS; errors := []; retry := false; panic := false |}
    demo_started.

Definition demo_counted : state :=
  emit (update_counter [ProgressBar.SUCCESS; ProgressBar.RUNNING] None)
    (with_running_tests (delete "mult-0" (running_tests demo_passed)) demo_passed).

Definition demo_done : state := with_threads [] demo_counted.

End Runner.

(** * [tortillas/main.py] *)

Module Main.

(** What [get_markdown_test_summary] can raise. *)
Inductive error : Type :=
| AssertionError
| ValueError (message : string)
| IndexError.

Inductive fallible (A : Type) : Type :=
| Done (a : A)
| Thrown (e : error).

Arguments Done {A} a.
Arguments Thrown {A} e.

#[global] Instance fallible_ret : MRet fallible := fun A a => Done a.

#[global] Instance fallible_bind : MBind fallible := fun A B k m =>
  match m with
  | Done a => k a
  | Thrown e => Thrown e
  end.

(** [s * n] for a [str] and an [int]: empty when [n] is not positive. *)
Fixpoint repeat_string (s : string) (n : nat) : string :=
  match n with
  | O => ""
  | S n => s +:+ repeat_string s n
  end.

Definition str_mul (s : string) (n : Z) : string := repeat_string s (Z.to_nat n).

(** [needle in s] for two [str] *)
Fixpoint str_in (needle s : string) : bool :=
  String.prefix needle s ||
  match s with
  | EmptyString => false
  | String _ rest => str_in needle rest
  end.

(** [s[-1]] *)
Definition last_char (s : string) : fallible string :=
  match s with
  | EmptyString => Thrown IndexError
  | _ => Done (Py.slice s (-1) (Py.len s))
  end.

(** [list.sort] is stable: [insert_by] puts [x], which came first, ahead of
    the first element it may stay ahead of, and [sort_by] sorts from the
    right.  [before x y] says that [x] may stay ahead of [y]: that the key
    of [x] is not greater, or not less when the order is reversed. *)
Fixpoint insert_by {A : Type} (before : A -> A -> bool) (x : A) (l : list A) : list A :=
  match l with
  | [] => [x]
  | y :: rest => if before x y then x :: y :: rest else y :: insert_by before x rest
  end.

Definition sort_by {A : Type} (before : A -> A -> bool) (l : list A) : list A :=
  foldr (insert_by before) [] l.

(** [status.name] *)
Definition TestStatus_name (st : TestStatus) : string :=
  match st with
  | PANIC => "PANIC"
  | FAILED => "FAILED"
  | TIMEOUT => "TIMEOUT"
  | SUCCESS => "SUCCESS"
  | DISABLED => "DISABLED"
  | NOT_RUN => "NOT_RUN"
  end.

(** Modelled from the spec: the attributes of [TestSpec]
    ([test_specification]) that [get_tests_to_run] reads, the tags being a
    set of strings. *)
Record TestSpec : Type := {
  category : string;
  tags : list string;
  disabled : bool
}.

(** The attributes of [Test] that [main] reads. *)
Record Test : Type := {
  name : string;
  run_number : Z;
  spec : TestSpec;
  result : Runner.TestResult
}.

Section Main.

(** [Test(stem, num, sweb_src_folder, tortillas_config)], [None] standing
    for [NoTestSpecFound]; [repr(test)] and [test.get_tmp_dir()]: of module
    [test], which is not among the sources. *)
Variable Test_new : string -> Z -> option Test.
Variable Test_repr : Test -> string.
Variable Test_get_tmp_dir : Test -> string.

(** The two nested loops of [get_tests_to_run] over the stems of the files
    found and over [range(repeat)]. *)
Definition created_tests (file_stems : list string) (repeat : Z) : list Test :=
  stem ← file_stems;
  num ← seqZ 0 repeat;
  match Test_new stem num with
  | Some test => [test]
  | None => []
  end.

(** [any(tag in test.spec.tags for tag in tag)] *)
Definition has_any_tag (test : Test) (tag : list string) : bool :=
  existsb (fun wanted => bool_decide (wanted ∈ tags (spec test))) tag.

(** [get_tests_to_run], from the files that the glob found: [file_stems]
    are their stems; [category] and [tag] are empty when the argument is
    not given. *)
Definition get_tests_to_run (file_stems : list string) (repeat : Z)
    (category tag : list string) : list Test * list string :=
  let tests := created_tests file_stems repeat in
  let tests :=
    match category with
    | [] => tests
    | _ => List.filter (fun test => bool_decide (Main.category (spec test) ∈ category)) tests
    end in
  let tests :=
    match tag with
    | [] => tests
    | _ => List.filter (fun test => has_any_tag test tag) tests
    end in
  let disabled_tests :=
    name <$> List.filter (fun test => disabled (spec test)) tests in
  let tests := List.filter (fun test => negb (disabled (spec test))) tests in
  let tests := sort_by (fun a b => String.leb (name b) (name a)) tests in
  let tests :=
    if 1 <? repeat then sort_by (fun a b => run_number a <=? run_number b) tests
    else tests in
  (tests, disabled_tests).

(** What the two filters keep, told in one go. *)
Definition selected (category tag : list string) (test : Test) : bool :=
  match category with
  | [] => true
  | _ => bool_decide (Main.category (spec test) ∈ category)
  end
  &&
  match tag with
  | [] => true
  | _ => has_any_tag test tag
  end.

(** The order of the tests that are returned: by run number when the tests
    are repeated, and by name from the last to the first. *)
Definition listed_before (repeat : Z) (a b : Test) : Prop :=
  if 1 <? repeat then
    run_number a < run_number b \/
    (run_number a = run_number b /\ String.le (name b) (name a))
  else String.le (name b) (name a).

(** The cells fit their columns: each leaves room for the two blanks. *)
Definition cells_fit (cells : list (string * Z)) : Prop :=
  Forall (fun cell => Py.len cell.1 + 2 <= cell.2) cells.

(** The loop of [markdown_table_row] over [zip(cols, widths)]. *)
Fixpoint row_loop (res : string) (cells : list (string * Z)) : fallible string :=
  match cells with
  | [] => Done res
  | (cell, width) :: rest =>
      let padding := width - Py.len cell - 2 in
      if padding <? 0 then
        Thrown (ValueError (String Py.DQUOTE cell
                            +:+ String Py.DQUOTE " is to long for the table width"))
      else row_loop (res +:+ (" " +:+ cell +:+ str_mul " " padding +:+ "|")) rest
  end.

Definition markdown_table_row (cols : list string) (widths : list Z) : fallible string :=
  if negb (length widths =? length cols)%nat then Thrown AssertionError
  else
    res ← row_loop "|" (zip cols widths);
    Done (res +:+ String Py.LF "").

Definition markdown_table_delim (widths : list Z) : string :=
  fold_left (fun res width => res +:+ (" " +:+ str_mul "-" (width - 3) +:+ " |")) widths "|"
  +:+ String Py.LF "".

(** The default of [widths] *)
Definition default_widths : list Z := [40; 20].

(** What the loop over the errors makes of one error before it adds it. *)
Definition trimmed_error (error : string) : fallible string :=
  final ← last_char error;
  let error :=
    if negb (bool_decide (final ∈ [String Py.LF ""; String Py.CR ""]))
    then error +:+ String Py.LF ""
    else error in
  let error :=
    if String.eqb (Py.slice error (-2) (Py.len error)) (String Py.LF (String Py.LF ""))
    then Py.slice error 0 (-1)
    else error in
  Done error.

(** The loop over [test.result.errors] *)
Fixpoint errors_loop (summary : string) (errors : list string) : fallible string :=
  match errors with
  | [] => Done summary
  | error :: rest =>
      error ← trimmed_error error;
      if str_in "=== Begin of backtrace" error then
        errors_loop (summary +:+ ("```" +:+ String Py.LF error +:+ "```")) rest
      else
        errors_loop (summary +:+ ("- " +:+ error)) rest
  end.

(** The loop over [failed_tests] *)
Fixpoint failed_tests_loop (summary : string) (failed_tests : list Test) : fallible string :=
  match failed_tests with
  | [] => Done summary
  | test :: rest =>
      let summary :=
        summary +:+ ("### " +:+ Test_repr test +:+ " - " +:+ Test_get_tmp_dir test
                     +:+ "/out.log" +:+ String Py.LF (String Py.LF "")) in
      summary ← errors_loop summary (Runner.errors (result test));
      failed_tests_loop (summary +:+ String Py.LF "") rest
  end.

(** The loop over [disabled_tests], which holds names *)
Fixpoint disabled_rows (summary : string) (disabled_tests : list string) : fallible string :=
  match disabled_tests with
  | [] => Done summary
  | test :: rest =>
      row ← markdown_table_row [test; TestStatus_name DISABLED] default_widths;
      disabled_rows (summary +:+ row) rest
  end.

(** The loop over [tests] *)
Fixpoint test_rows (summary : string) (tests : list Test) : fallible string :=
  match tests with
  | [] => Done summary
  | test :: rest =>
      row ← markdown_table_row
              [Test_repr test; TestStatus_name (Runner.status (result test))] default_widths;
      test_rows (summary +:+ row) rest
  end.

(** The two loops told in one go: one row for each pair of cells. *)
Fixpoint rows_loop (summary : string) (rows : list (string * string)) : fallible string :=
  match rows with
  | [] => Done summary
  | (test, verdict) :: rest =>
      row ← markdown_table_row [test; verdict] default_widths;
      rows_loop (summary +:+ row) rest
  end.

(** The lines of a text one after the other. *)
Definition lines_text (lines : list string) : string := foldr String.append "" lines.

(** [tests.sort(key=(lambda test: test.result.status.name))] *)
Definition sorted_by_status (tests : list Test) : list Test :=
  sort_by (fun a b => String.leb (TestStatus_name (Runner.status (result a)))
                                 (TestStatus_name (Runner.status (result b)))) tests.




(** [get_markdown_test_summary]: the text it returns, which is also the
    text it writes to the summary file. *)
Definition get_markdown_test_summary (tests : list Test) (disabled_tests : list string)
    (success : bool) : fallible string :=
  let tests := sorted_by_status tests in
  let summary := "" in
  row ← markdown_table_row ["Test run"; "Result"] default_widths;
  let summary := summary +:+ row in
  let summary := summary +:+ markdown_table_delim default_widths in
  summary ← disabled_rows summary disabled_tests;
  summary ← test_rows summary tests;
  if negb success then
    let failed_tests :=
      List.filter (fun test => bool_decide (Runner.status (result test) ∈ [FAILED; PANIC]))
        tests in
    let summary := summary +:+ String Py.LF (String Py.LF "") in
    let summary := summary +:+ ("## Errors" +:+ String Py.LF (String Py.LF "")) in
    failed_tests_loop summary failed_tests
  else Done summary.

End Main.

(** A small run to try the summary on: "mult" failed with one error, and
    "exec" is disabled. *)
Definition demo_mult : Test :=
  {| name := "mult"; run_number := 0;
     spec := {| category := "base"; tags := ["math"]; disabled := false |};
     result := {| Runner.status := FAILED; Runner.errors := ["Unexpected exit code 1"];
                  Runner.retry := false; Runner.panic := false |} |}.

Definition demo_repr (test : Test) : string := name test +:+ "-0".

Definition demo_tmp_dir (test : Test) : string := "/tmp/tortillas/" +:+ name test.

End Main.

(** * Properties of the builtins *)

Module PyFacts.

Lemma append_nil_l (t : string) : "" +:+ t = t.
Proof. reflexivity. Qed.

Lemma append_cons (c : ascii) (s t : string) : String c s +:+ t = String c (s +:+ t).
Proof. reflexivity. Qed.

Lemma append_inv_head (s a b : string) : s +:+ a = s +:+ b -> a = b.
Proof.
  induction s as [|c s IH]; rewrite ?append_nil_l, ?append_cons; intros H; [exact H|].
  injection H as H. auto.
Qed.

Lemma length_append (s t : string) :
  String.length (s +:+ t) = (String.length s + String.length t)%nat.
Proof.
  induction s as [|c s IH]; rewrite ?append_nil_l, ?append_cons; [reflexivity|].
  cbn [String.length]. now rewrite IH.
Qed.

Lemma append_inv_tail (s1 s2 t : string) : s1 +:+ t = s2 +:+ t -> s1 = s2.
Proof.
  revert s2. induction s1 as [|c s1 IH]; intros [|d s2] H;
    rewrite ?append_nil_l, ?append_cons in H.
  - reflexivity.
  - apply (f_equal String.length) in H. cbn [String.length] in H.
    rewrite (length_append s2 t) in H. lia.
  - apply (f_equal String.length) in H. cbn [String.length] in H.
    rewrite (length_append s1 t) in H. lia.
  - injection H as -> H. f_equal. auto.
Qed.

(** A piece of a [repr] body tells the character it stands for, whatever
    follows it. *)
Lemma unrepr_head_repr_char (q c : ascii) (rest : string) :
  q = Py.SQUOTE \/ q = Py.DQUOTE ->
  Py.unrepr_head (Py.repr_char q c +:+ rest) = Some c.
Proof.
  intros [-> | ->];
    destruct c as [[] [] [] [] [] [] [] []]; vm_compute; reflexivity.
Qed.

Lemma repr_quote_cases (s : string) :
  Py.repr_quote s = Py.SQUOTE \/ Py.repr_quote s = Py.DQUOTE.
Proof. unfold Py.repr_quote. destruct (_ && _); auto. Qed.

Lemma repr_body_inj (q : ascii) (s1 s2 : string) :
  q = Py.SQUOTE \/ q = Py.DQUOTE ->
  Py.repr_body q s1 = Py.repr_body q s2 -> s1 = s2.
Proof.
  intros Hq. revert s2.
  induction s1 as [|c1 s1 IH]; intros [|c2 s2] H; cbn [Py.repr_body] in H.
  - reflexivity.
  - apply (f_equal Py.unrepr_head) in H.
    rewrite unrepr_head_repr_char in H by assumption. discriminate.
  - apply (f_equal Py.unrepr_head) in H.
    rewrite unrepr_head_repr_char in H by assumption. discriminate.
  - assert (c1 = c2) as ->.
    { apply (f_equal Py.unrepr_head) in H.
      rewrite !unrepr_head_repr_char in H by assumption. congruence. }
    apply append_inv_head in H. f_equal. auto.
Qed.

(** [repr] of a [str] is injective: two texts with the same [repr] are the
    same text. *)
Lemma repr_inj (s1 s2 : string) : Py.repr s1 = Py.repr s2 -> s1 = s2.
Proof.
  unfold Py.repr. intros H. injection H as Hq H.
  rewrite <- Hq in H. apply append_inv_tail in H.
  eapply repr_body_inj; [apply repr_quote_cases | exact H].
Qed.

End PyFacts.

(** * Properties of the analyzer *)

Section AnalyzerFacts.

(** The interpreter's digit limit and the marker of expected output. *)
Variable limit : nat.
Variable marker : string.

(** ** Records *)

Lemma Return_inj {A : Type} (a b : A) : Return a = Return b -> a = b.
Proof. now intros [= ->]. Qed.

Lemma TestResult_eta (r : TestResult) :
  {| status := status r; errors := errors r; retry := retry r |} = r.
Proof. now destruct r. Qed.

Lemma errors_fold_append (errs : list string) (r : TestResult) :
  fold_left errors_append errs r =
  {| status := status r; errors := errors r ++ errs; retry := retry r |}.
Proof.
  revert r. induction errs as [|e errs IH]; intros r; cbn [fold_left].
  - rewrite app_nil_r. symmetry. apply TestResult_eta.
  - rewrite IH. unfold errors_append. cbn. now rewrite <- app_assoc.
Qed.

(** [add_errors] with at least one error appends them all and then sets the
    status. *)
Lemma add_errors_cons (r : TestResult) (e : string) (errs : list string)
    (st : option TestStatus) :
  add_errors r (e :: errs) st =
  _set_status {| status := status r; errors := errors r ++ e :: errs; retry := retry r |} st.
Proof. unfold add_errors. now rewrite errors_fold_append. Qed.

Lemma errors_set_status (r : TestResult) (st : option TestStatus) :
  errors (_set_status r st) = errors r.
Proof. now destruct st. Qed.

(** ** The disabled flag *)

(** C1: for a disabled test, [analyze] returns the status DISABLED with no
    error and no retry, whatever the log data and the watchdog status; no
    rule is looked up. *)
Theorem analyze_disabled (self : LogAnalyzer) (log_data : list (string * list string))
    (ir_watchdog_status : InterruptWatchdog.Status) :
  disabled (test_spec self) = true ->
  analyze limit marker self log_data ir_watchdog_status =
  Return {| status := DISABLED; errors := []; retry := false |}.
Proof. intros H. unfold analyze. now rewrite H. Qed.

(** ** Exit codes *)

(** C2: panic dominance. On a result whose status is PANIC,
    [check_exit_codes] returns the result as it is, whatever the exit code
    lines (missing, unexpected or unparsable), the expected codes and the
    status to set. *)
Theorem check_exit_codes_panic (self : TestResult) (exit_codes : list string)
    (expect_exit_codes : list Z) (st : option TestStatus) :
  status self = PANIC ->
  check_exit_codes limit self exit_codes expect_exit_codes st = Return self.
Proof. intros H. unfold check_exit_codes. now rewrite H. Qed.

(** C6: with no exit code line and a status other than PANIC,
    [check_exit_codes] appends the one error "Missing exit code!"; the
    status becomes FAILED when it was SUCCESS and stays as it was otherwise
    (TIMEOUT, FAILED, DISABLED, NOT_RUN); the retry flag is not touched and
    the status to set is not applied. *)
Theorem check_exit_codes_missing (self : TestResult) (expect_exit_codes : list Z)
    (st : option TestStatus) :
  status self <> PANIC ->
  check_exit_codes limit self [] expect_exit_codes st =
  Return {| status := if bool_decide (status self = SUCCESS) then FAILED else status self;
            errors := errors self ++ ["Missing exit code!"];
            retry := retry self |}.
Proof.
  intros H. destruct self as [s e r]. cbn in H.
  unfold check_exit_codes. destruct s; try congruence; reflexivity.
Qed.

(** The loop until a code that does not parse: the codes before it are
    checked, those after it are never read. *)
Lemma exit_codes_loop_parse_failure (before after : list string) (token : string)
    (expect_exit_codes : list Z) (self : TestResult) (unexpected : bool) :
  Forall (fun code => is_Some (Py.int limit code)) before ->
  Py.int limit token = None ->
  exit_codes_loop limit self expect_exit_codes unexpected (before ++ token :: after) =
  Returned {| status := FAILED;
              errors := errors self ++ unexpected_errors limit expect_exit_codes before
                        ++ ["Failed to parse exit code " +:+ token];
              retry := true |}.
Proof.
  intros Hbefore Htoken. revert self unexpected.
  induction Hbefore as [|code before [v Hv] _ IH]; intros self unexpected.
  - cbn [app exit_codes_loop unexpected_errors]. now rewrite Htoken.
  - cbn [app exit_codes_loop unexpected_errors]. rewrite Hv.
    destruct (bool_decide (v ∉ expect_exit_codes)); rewrite IH; cbn [errors errors_append].
    + now rewrite <- app_assoc.
    + reflexivity.
Qed.

(** The loop over codes that all parse: it ends by running out of codes,
    with one error for each unexpected code. *)
Lemma exit_codes_loop_parsed (exit_codes : list string) (expect_exit_codes : list Z)
    (self : TestResult) (unexpected : bool) :
  Forall (fun code => is_Some (Py.int limit code)) exit_codes ->
  exit_codes_loop limit self expect_exit_codes unexpected exit_codes =
  Completed {| status := status self;
               errors := errors self ++ unexpected_errors limit expect_exit_codes exit_codes;
               retry := retry self |}
    (unexpected || bool_decide (unexpected_errors limit expect_exit_codes exit_codes <> [])).
Proof.
  intros Hall. revert self unexpected.
  induction Hall as [|code codes [v Hv] _ IH]; intros self unexpected.
  - cbn [exit_codes_loop unexpected_errors]. rewrite app_nil_r, TestResult_eta.
    now rewrite orb_false_r.
  - cbn [exit_codes_loop unexpected_errors]. rewrite Hv.
    destruct (bool_decide (v ∉ expect_exit_codes)); rewrite IH; cbn [errors errors_append status retry].
    + rewrite <- app_assoc. cbn [app]. now rewrite orb_true_r.
    + reflexivity.
Qed.

Lemma check_exit_codes_at_parse_failure (self : TestResult) (before after : list string)
    (token : string) (expect_exit_codes : list Z) (st : option TestStatus) :
  status self <> PANIC ->
  Forall (fun code => is_Some (Py.int limit code)) before ->
  Py.int limit token = None ->
  check_exit_codes limit self (before ++ token :: after) expect_exit_codes st =
  Return {| status := FAILED;
            errors := errors self ++ unexpected_errors limit expect_exit_codes before
                      ++ ["Failed to parse exit code " +:+ token];
            retry := true |}.
Proof.
  intros Hpanic Hbefore Htoken. unfold check_exit_codes.
  rewrite bool_decide_eq_false_2 by assumption.
  assert (check_parsed_codes limit self (before ++ token :: after) expect_exit_codes st =
          Return {| status := FAILED;
                    errors := errors self ++ unexpected_errors limit expect_exit_codes before
                              ++ ["Failed to parse exit code " +:+ token];
                    retry := true |}) as Hparsed.
  { unfold check_parsed_codes.
    now rewrite (exit_codes_loop_parse_failure before after token) by assumption. }
  destruct before; exact Hparsed.
Qed.

(** A list with a code that does not parse splits at the first such code. *)
Lemma first_parse_failure (exit_codes : list string) :
  Exists (fun code => Py.int limit code = None) exit_codes ->
  exists (before : list string) (token : string) (after : list string),
    exit_codes = before ++ token :: after /\
    Forall (fun code => is_Some (Py.int limit code)) before /\
    Py.int limit token = None.
Proof.
  induction exit_codes as [|code codes IH]; intros Hsome.
  - inversion Hsome.
  - destruct (Py.int limit code) as [v|] eqn:Hcode.
    + inversion Hsome as [? ? Hhead | ? ? Htail]; subst; [congruence|].
      destruct (IH Htail) as (before & token & after & -> & Hbefore & Htoken).
      exists (code :: before), token, after. repeat split; [|assumption].
      constructor; [now exists v | assumption].
    + exists [], code, codes. repeat split; [constructor | assumption].
Qed.

(** C5, as amended: on a result whose status is not PANIC, when some exit
    code line does not parse as an integer, [check_exit_codes] appends the
    error of the first such line after the errors of the unexpected codes
    before it, sets the status FAILED and the retry flag, and ends: no
    further error is appended, the status to set is not applied, and the
    lines after that line are not read (the result is the same whatever
    they are). *)
Theorem check_exit_codes_parse_failure (self : TestResult) (exit_codes : list string)
    (expect_exit_codes : list Z) (st : option TestStatus) :
  status self <> PANIC ->
  Exists (fun code => Py.int limit code = None) exit_codes ->
  exists (before : list string) (token : string) (after : list string),
    exit_codes = before ++ token :: after /\
    Forall (fun code => is_Some (Py.int limit code)) before /\
    Py.int limit token = None /\
    forall others : list string,
      check_exit_codes limit self (before ++ token :: others) expect_exit_codes st =
      Return {| status := FAILED;
                errors := errors self ++ unexpected_errors limit expect_exit_codes before
                          ++ ["Failed to parse exit code " +:+ token];
                retry := true |}.
Proof.
  intros Hpanic Hsome.
  destruct (first_parse_failure exit_codes Hsome)
    as (before & token & after & Hsplit & Hbefore & Htoken).
  exists before, token, after. repeat split; try assumption.
  intros others. now apply check_exit_codes_at_parse_failure.
Qed.

(** X3: on a result whose status is not PANIC, exit code lines that all
    parse (at least one) are all checked: each code that is not expected
    appends its error; when there is none the result stays as it is; when
    there is one, the error that lists the expected codes is appended after
    them and the status the rule sets is applied, once. *)
Theorem check_exit_codes_all_parsed (self : TestResult) (exit_codes : list string)
    (expect_exit_codes : list Z) (st : option TestStatus) :
  status self <> PANIC ->
  exit_codes <> [] ->
  Forall (fun code => is_Some (Py.int limit code)) exit_codes ->
  check_exit_codes limit self exit_codes expect_exit_codes st =
  if bool_decide (unexpected_errors limit expect_exit_codes exit_codes <> []) then
    strs ← Py.str_all limit expect_exit_codes;
    Return {| status := default (status self) st;
              errors := errors self ++ unexpected_errors limit expect_exit_codes exit_codes
                        ++ ["Expected exit code(s): " +:+ Py.join ", " strs];
              retry := retry self |}
  else Return self.
Proof.
  intros Hpanic Hcodes Hall. unfold check_exit_codes.
  rewrite bool_decide_eq_false_2 by assumption.
  assert (check_parsed_codes limit self exit_codes expect_exit_codes st =
          if bool_decide (unexpected_errors limit expect_exit_codes exit_codes <> []) then
            strs ← Py.str_all limit expect_exit_codes;
            Return {| status := default (status self) st;
                      errors := errors self
                                ++ unexpected_errors limit expect_exit_codes exit_codes
                                ++ ["Expected exit code(s): " +:+ Py.join ", " strs];
                      retry := retry self |}
          else Return self) as Hparsed.
  { unfold check_parsed_codes. rewrite exit_codes_loop_parsed by assumption.
    cbn [orb]. case_bool_decide as Hunexpected.
    - destruct (Py.str_all limit expect_exit_codes) as [strs|e]; [|reflexivity].
      cbn [mbind outcome_bind]. unfold errors_append. cbn [errors status retry].
      rewrite <- app_assoc. now destruct st.
    - rewrite Hunexpected, app_nil_r.
      now rewrite TestResult_eta. }
  destruct exit_codes; [congruence | exact Hparsed].
Qed.

(** C4, as amended: on a result whose status is SUCCESS, the line "0" with
    the expected code 0 changes nothing; the line "1" with the expected
    code 0 appends the two errors "Unexpected exit code 1" and "Expected
    exit code(s): 0" and applies the status the rule sets: the status
    becomes that one when the rule sets one, and stays SUCCESS when it sets
    none. *)
Theorem check_exit_codes_round_trip (self : TestResult) (st : option TestStatus) :
  status self = SUCCESS ->
  check_exit_codes limit self ["0"] [0] st = Return self /\
  check_exit_codes limit self ["1"] [0] st =
  Return {| status := default SUCCESS st;
            errors := errors self ++ ["Unexpected exit code 1"; "Expected exit code(s): 0"];
            retry := retry self |}.
Proof.
  intros H. destruct self as [s e r]. cbn in H. subst s. split.
  - reflexivity.
  - assert (Py.int limit "1" = Some 1) as Hint by reflexivity.
    assert (Py.str_all limit [0] = Return ["0"]) as Hstr by reflexivity.
    unfold check_exit_codes, check_parsed_codes.
    cbn [status bool_decide decide_rel exit_codes_loop]. rewrite Hint.
    change (bool_decide (1 ∉ [0])) with true. cbn iota.
    rewrite Hstr. cbn [mbind outcome_bind errors errors_append status retry Py.join String.concat].
    change (bool_decide (SUCCESS = PANIC)) with false. cbn iota.
    unfold errors_append. cbn [errors status retry]. rewrite <- app_assoc.
    now destruct st.
Qed.

(** ** The rules over one bucket *)

(** [analyze_entry] once the rule is found and its status is resolved. *)
Ltac found_entry Hfind Hstatus Hmode :=
  unfold analyze_entry; rewrite Hfind; cbn [mbind outcome_bind];
  rewrite Hstatus; cbn [mbind outcome_bind]; rewrite Hmode;
  simpl (String.eqb _ _); cbn iota.

(** C8: over a bucket that is not empty, the mode add_as_error_last appends
    exactly one error, the first line of the bucket (index 0), and applies
    the status the rule sets, if any; the retry flag is not touched. *)
Theorem add_as_error_last_first_line (self : LogAnalyzer) (result : TestResult)
    (entry_name : string) (config_entry : AnalyzeConfigEntry) (st : option TestStatus)
    (line : string) (rest : list string) :
  _get_config_entry_by_name self entry_name = Return config_entry ->
  entry_status config_entry = Return st ->
  mode config_entry = "add_as_error_last" ->
  analyze_entry limit marker self result entry_name (line :: rest) =
  Return {| status := default (status result) st;
            errors := errors result ++ [line];
            retry := retry result |}.
Proof.
  intros Hfind Hstatus Hmode. found_entry Hfind Hstatus Hmode.
  cbn [Py.slice01]. rewrite add_errors_cons. now destruct st.
Qed.

(** ** Expected output *)

Lemma prefix_length (p s : string) :
  String.prefix p s = true -> (String.length p <= String.length s)%nat.
Proof.
  revert s. induction p as [|c p IH]; intros s H; cbn [String.length]; [lia|].
  destruct s as [|d s]; cbn [String.prefix] in H; [discriminate|].
  destruct (ascii_dec c d); [|discriminate].
  cbn [String.length]. specialize (IH s H). lia.
Qed.

Lemma substring_nothing (n : nat) (s : string) : substring n 0 s = "".
Proof. revert s. induction n as [|n IH]; intros [|c s]; cbn; auto. Qed.

(** The slice from the end of the marker to [k] characters before the end
    of a line that starts with the marker. *)
Lemma slice_strip_marker (k : nat) (line : string) :
  (0 < k)%nat ->
  Py.startswith line marker = true ->
  Py.slice line (Py.len marker) (- Z.of_nat k) = strip_marker marker k line.
Proof.
  intros Hk Hstarts. apply prefix_length in Hstarts.
  unfold Py.slice, Py.adjust_index, Py.len, strip_marker.
  destruct (Z.ltb_spec (Z.of_nat (String.length marker)) 0) as [?|_]; [lia|].
  destruct (Z.ltb_spec (- Z.of_nat k) 0) as [_|?]; [|lia].
  rewrite Z.min_l by lia.
  destruct (Z.ltb_spec (Z.of_nat (String.length marker))
              (Z.max 0 (- Z.of_nat k + Z.of_nat (String.length line)))) as [Hlt|Hge].
  - rewrite Nat2Z.id. f_equal. lia.
  - replace (String.length line - String.length marker - k)%nat with 0%nat by lia.
    now rewrite substring_nothing.
Qed.

Lemma expect_stdout_loop_cons (total i : Z) (line : string) (rest actual_stdout : list string) :
  expect_stdout_loop marker total i (line :: rest) actual_stdout =
  if negb (Py.startswith line marker) then
    expect_stdout_loop marker total (i + 1) rest actual_stdout
  else if i =? total - 1 then
    expect_stdout_loop marker total (i + 1) rest
      (actual_stdout ++ [Py.slice line (Py.len marker) (-2)])
  else
    expect_stdout_loop marker total (i + 1) rest
      (actual_stdout ++ [Py.slice line (Py.len marker) (-1)]).
Proof. reflexivity. Qed.

(** The loop of [check_expect_stdout], entered at index [i] with the rest of
    the bucket, appends the stripped lines of that rest. *)
Lemma expect_stdout_loop_stripped (logs : list string) (i : Z) (actual_stdout : list string) :
  expect_stdout_loop marker (i + Z.of_nat (length logs)) i logs actual_stdout =
  actual_stdout ++ stripped_lines marker logs.
Proof.
  revert i actual_stdout.
  induction logs as [|line [|next rest] IH]; intros i actual_stdout.
  - cbn. now rewrite app_nil_r.
  - rewrite expect_stdout_loop_cons.
    cbn [expect_stdout_loop length stripped_lines last removelast List.filter map app].
    replace (i =? i + Z.of_nat 1 - 1) with true by (symmetry; apply Z.eqb_eq; lia).
    destruct (Py.startswith line marker) eqn:Hstarts; cbn [negb].
    + change (-2) with (- Z.of_nat 2). rewrite slice_strip_marker by (assumption || lia).
      reflexivity.
    + now rewrite app_nil_r.
  - rewrite expect_stdout_loop_cons.
    replace (i + Z.of_nat (length (line :: next :: rest)))
      with (i + 1 + Z.of_nat (length (next :: rest))) by (cbn [length]; lia).
    replace (i =? i + 1 + Z.of_nat (length (next :: rest)) - 1) with false
      by (symmetry; apply Z.eqb_neq; cbn [length]; lia).
    unfold stripped_lines.
    change (last (line :: next :: rest)) with (last (next :: rest)).
    change (removelast (line :: next :: rest)) with (line :: removelast (next :: rest)).
    cbn [List.filter].
    destruct (Py.startswith line marker) eqn:Hstarts; cbn [negb]; rewrite IH.
    + change (-1) with (- Z.of_nat 1). rewrite slice_strip_marker by (assumption || lia).
      unfold stripped_lines. destruct (last (next :: rest)) eqn:Hlast; cbn [map].
      * now rewrite <- (app_assoc actual_stdout).
      * apply last_None in Hlast. discriminate.
    + reflexivity.
Qed.

(** The text [check_expect_stdout] compares: the stripped lines, joined. *)
Lemma actual_stdout_stripped (logs : list string) :
  actual_stdout_of marker logs = Py.join "" (stripped_lines marker logs).
Proof.
  unfold actual_stdout_of. f_equal.
  exact (expect_stdout_loop_stripped logs 0 []).
Qed.

(** C3, as amended: with an expected output that is set and not empty,
    [check_expect_stdout] compares it with the lines that start with the
    marker, each without the marker and without its last character (its
    last two characters for the line at the last index of the bucket),
    joined.  When the two are equal nothing changes; when they differ in any
    way exactly two errors are appended, the expected and the actual text
    (each as its [repr]), and the status the rule sets is applied. *)
Theorem check_expect_stdout_exact (self : TestResult) (logs : list string)
    (spec : TestSpec) (st : option TestStatus) (want : string) :
  expect_stdout spec = Some want ->
  want <> "" ->
  actual_stdout_of marker logs = Py.join "" (stripped_lines marker logs) /\
  (actual_stdout_of marker logs = want ->
   check_expect_stdout marker self logs spec st = self) /\
  (actual_stdout_of marker logs <> want ->
   check_expect_stdout marker self logs spec st =
   {| status := default (status self) st;
      errors := errors self ++
                ["Expected output:" +:+ String Py.LF (Py.repr want);
                 "Actual output:" +:+ String Py.LF (Py.repr (actual_stdout_of marker logs))];
      retry := retry self |}).
Proof.
  intros Hspec Hwant. split; [apply actual_stdout_stripped|].
  unfold check_expect_stdout. rewrite Hspec.
  destruct want as [|c want]; [congruence|]. split.
  - intros ->. now rewrite String.eqb_refl.
  - intros Hne.
    destruct (String.eqb_spec (Py.repr (actual_stdout_of marker logs))
                (Py.repr (String c want))) as [Heq|_].
    + apply PyFacts.repr_inj in Heq. contradiction.
    + cbn [negb]. unfold errors_append. cbn [errors status retry].
      rewrite <- app_assoc. now destruct st.
Qed.

Lemma check_expect_stdout_unset (self : TestResult) (logs : list string) (spec : TestSpec)
    (st : option TestStatus) :
  expect_stdout spec = None \/ expect_stdout spec = Some "" ->
  check_expect_stdout marker self logs spec st = self.
Proof. unfold check_expect_stdout. now intros [-> | ->]. Qed.

(** ** Errors are only ever appended *)

Lemma add_errors_errors (r : TestResult) (errs : list string) (st : option TestStatus) :
  errors (add_errors r errs st) = errors r ++ errs.
Proof.
  destruct errs as [|e errs].
  - cbn. now rewrite app_nil_r.
  - rewrite add_errors_cons. now destruct st.
Qed.

Lemma check_expect_stdout_errors (r : TestResult) (logs : list string) (spec : TestSpec)
    (st : option TestStatus) :
  errors r `prefix_of` errors (check_expect_stdout marker r logs spec st).
Proof.
  unfold check_expect_stdout.
  destruct (expect_stdout spec) as [[|c want]|]; [reflexivity| |reflexivity].
  destruct (negb _); [|reflexivity].
  rewrite errors_set_status. unfold errors_append. cbn [errors].
  rewrite <- app_assoc. now apply prefix_app_r.
Qed.

Lemma exit_codes_loop_errors (exit_codes : list string) (expect_exit_codes : list Z)
    (r : TestResult) (unexpected : bool) :
  match exit_codes_loop limit r expect_exit_codes unexpected exit_codes with
  | Returned r' => errors r `prefix_of` errors r'
  | Completed r' _ => errors r `prefix_of` errors r'
  end.
Proof.
  revert r unexpected.
  induction exit_codes as [|code codes IH]; intros r unexpected; cbn [exit_codes_loop].
  - reflexivity.
  - destruct (Py.int limit code) as [v|].
    + destruct (bool_decide (v ∉ expect_exit_codes)); [|apply IH].
      specialize (IH (errors_append r ("Unexpected exit code " +:+ code)) true).
      destruct (exit_codes_loop _ _ _ _ _);
        (etransitivity; [|exact IH]); now apply prefix_app_r.
    + cbn [errors with_retry with_status errors_append]. now apply prefix_app_r.
Qed.

Lemma check_parsed_codes_errors (r r' : TestResult) (exit_codes : list string)
    (expect_exit_codes : list Z) (st : option TestStatus) :
  check_parsed_codes limit r exit_codes expect_exit_codes st = Return r' ->
  errors r `prefix_of` errors r'.
Proof.
  unfold check_parsed_codes. intros H.
  pose proof (exit_codes_loop_errors exit_codes expect_exit_codes r false) as Hloop.
  destruct (exit_codes_loop _ _ _ _ _) as [r1|r1 [|]].
  - now apply Return_inj in H as <-.
  - destruct (Py.str_all limit expect_exit_codes) as [strs|e]; [|discriminate].
    cbn [mbind outcome_bind] in H. apply Return_inj in H as <-.
    rewrite errors_set_status. cbn [errors errors_append].
    etransitivity; [exact Hloop|]. now apply prefix_app_r.
  - now apply Return_inj in H as <-.
Qed.

Lemma check_exit_codes_errors (r r' : TestResult) (exit_codes : list string)
    (expect_exit_codes : list Z) (st : option TestStatus) :
  check_exit_codes limit r exit_codes expect_exit_codes st = Return r' ->
  errors r `prefix_of` errors r'.
Proof.
  unfold check_exit_codes. intros H.
  destruct (bool_decide (status r = PANIC)); [now apply Return_inj in H as <-|].
  destruct exit_codes as [|code codes].
  - destruct (bool_decide _).
    + apply Return_inj in H as <-. cbn [errors with_status errors_append]. now apply prefix_app_r.
    + apply check_parsed_codes_errors in H. cbn [errors errors_append] in H.
      etransitivity; [|exact H]. now apply prefix_app_r.
  - now apply check_parsed_codes_errors in H.
Qed.

Lemma analyze_entry_errors (self : LogAnalyzer) (r r' : TestResult) (entry_name : string)
    (logs : list string) :
  analyze_entry limit marker self r entry_name logs = Return r' ->
  errors r `prefix_of` errors r'.
Proof.
  unfold analyze_entry. intros H.
  destruct (_get_config_entry_by_name self entry_name) as [e|]; [|discriminate].
  cbn [mbind outcome_bind] in H.
  destruct (entry_status e) as [st|]; [|discriminate].
  cbn [mbind outcome_bind] in H.
  repeat match type of H with
         | (if ?b then _ else _) = _ => destruct b
         end.
  - apply Return_inj in H as <-. rewrite add_errors_errors. now apply prefix_app_r.
  - apply Return_inj in H as <-. rewrite add_errors_errors. now apply prefix_app_r.
  - apply Return_inj in H as <-. rewrite add_errors_errors. now apply prefix_app_r.
  - apply Return_inj in H as <-. cbn [errors with_retry]. rewrite add_errors_errors.
    now apply prefix_app_r.
  - apply Return_inj in H as <-. apply check_expect_stdout_errors.
  - now apply check_exit_codes_errors in H.
  - now apply Return_inj in H as <-.
Qed.

Lemma analyze_loop_errors (self : LogAnalyzer) (log_data : list (string * list string))
    (r r' : TestResult) :
  analyze_loop limit marker self r log_data = Return r' ->
  errors r `prefix_of` errors r'.
Proof.
  revert r. induction log_data as [|[entry_name logs] rest IH]; intros r H;
    cbn [analyze_loop] in H.
  - now apply Return_inj in H as <-.
  - destruct (analyze_entry limit marker self r entry_name logs) as [r1|] eqn:Hentry;
      [|discriminate].
    cbn [mbind outcome_bind] in H.
    etransitivity; [eapply analyze_entry_errors; exact Hentry | now apply IH].
Qed.

(** ** Empty buckets *)

(** C7, as amended: over an empty bucket the modes add_as_error and
    add_as_error_last, and the mode expect_stdout of a test without expected
    output, leave the result as it is (no error, same status, same retry
    flag).  The mode exit_codes is made to see an empty bucket, so that a
    run without exit code does not pass: unless the status is PANIC, when
    it leaves the result as it is, it appends "Missing exit code!" and
    turns SUCCESS into FAILED; it does not set the retry flag. *)
Theorem empty_bucket (self : LogAnalyzer) (result : TestResult) (entry_name : string)
    (config_entry : AnalyzeConfigEntry) (st : option TestStatus) :
  _get_config_entry_by_name self entry_name = Return config_entry ->
  entry_status config_entry = Return st ->
  (mode config_entry = "add_as_error" \/ mode config_entry = "add_as_error_last" \/
   mode config_entry = "expect_stdout" /\
   (expect_stdout (test_spec self) = None \/ expect_stdout (test_spec self) = Some "") ->
   analyze_entry limit marker self result entry_name [] = Return result) /\
  (mode config_entry = "exit_codes" ->
   (status result = PANIC ->
    analyze_entry limit marker self result entry_name [] = Return result) /\
   (status result <> PANIC ->
    analyze_entry limit marker self result entry_name [] =
    Return {| status := if bool_decide (status result = SUCCESS) then FAILED
                        else status result;
              errors := errors result ++ ["Missing exit code!"];
              retry := retry result |})).
Proof.
  intros Hfind Hstatus. split.
  - intros [Hmode | [Hmode | [Hmode Hunset]]]; found_entry Hfind Hstatus Hmode;
      [reflexivity | reflexivity | now rewrite check_expect_stdout_unset].
  - intros Hmode. found_entry Hfind Hstatus Hmode.
    destruct result as [s e r]. cbn [status]. unfold check_exit_codes. split.
    + intros ->. reflexivity.
    + intros Hpanic. destruct s; try congruence; reflexivity.
Qed.

(** ** The watchdog *)

Lemma add_errors_no_status (r : TestResult) (errs : list string) :
  status (add_errors r errs None) = status r /\ retry (add_errors r errs None) = retry r.
Proof.
  destruct errs as [|e errs]; [now split|]. now rewrite add_errors_cons.
Qed.

Lemma check_expect_stdout_no_status (r : TestResult) (logs : list string) (spec : TestSpec) :
  status (check_expect_stdout marker r logs spec None) = status r /\
  retry (check_expect_stdout marker r logs spec None) = retry r.
Proof.
  unfold check_expect_stdout.
  destruct (expect_stdout spec) as [[|c want]|]; [now split| |now split].
  now destruct (negb _).
Qed.

(** A rule that sets no status and whose mode is neither retry nor
    exit_codes sets nothing, whatever its bucket. *)
Lemma collecting_rule_sets_nothing (self : LogAnalyzer) (entry_name : string)
    (logs : list string) (config_entry : AnalyzeConfigEntry) :
  _get_config_entry_by_name self entry_name = Return config_entry ->
  entry_status config_entry = Return None ->
  mode config_entry <> "retry" ->
  mode config_entry <> "exit_codes" ->
  sets_nothing limit marker self entry_name logs.
Proof.
  intros Hfind Hstatus Hretry Hexit result.
  unfold analyze_entry. rewrite Hfind. cbn [mbind outcome_bind].
  rewrite Hstatus. cbn [mbind outcome_bind].
  repeat match goal with
         | |- context [String.eqb ?a ?b] => destruct (String.eqb_spec a b)
         end;
    try contradiction;
    (eexists; split; [reflexivity|]);
    first [apply add_errors_no_status | apply check_expect_stdout_no_status | now split].
Qed.

Lemma analyze_loop_sets_nothing (self : LogAnalyzer) (log_data : list (string * list string)) :
  Forall (fun bucket => sets_nothing limit marker self bucket.1 bucket.2) log_data ->
  forall r : TestResult,
    exists r' : TestResult,
      analyze_loop limit marker self r log_data = Return r' /\
      status r' = status r /\ retry r' = retry r.
Proof.
  induction 1 as [|[entry_name logs] rest Hbucket _ IH]; intros r; cbn [analyze_loop].
  - now exists r.
  - cbn [fst snd] in Hbucket.
    destruct (Hbucket r) as (r1 & -> & Hstatus & Hretry). cbn [mbind outcome_bind].
    destruct (IH r1) as (r' & -> & Hstatus' & Hretry').
    exists r'. repeat split; congruence.
Qed.

(** C10, as amended: when the watchdog status is STOPPED and the test is
    not disabled, [analyze] starts the rules from the status SUCCESS, the
    one error "Test killed, because no more interrupts were coming" and no
    retry: the watchdog step appends the error and sets no status.  When no
    rule over the buckets sets the status or the retry flag, the result has
    the status SUCCESS, an error list that starts with that error, and no
    retry; with no bucket at all the error is the only one. *)
Theorem analyze_stopped (self : LogAnalyzer) (log_data : list (string * list string)) :
  disabled (test_spec self) = false ->
  analyze limit marker self log_data InterruptWatchdog.STOPPED =
  analyze_loop limit marker self
    {| status := SUCCESS;
       errors := ["Test killed, because no more interrupts were coming"];
       retry := false |} log_data /\
  analyze limit marker self [] InterruptWatchdog.STOPPED =
  Return {| status := SUCCESS;
            errors := ["Test killed, because no more interrupts were coming"];
            retry := false |} /\
  (Forall (fun bucket => sets_nothing limit marker self bucket.1 bucket.2) log_data ->
   exists more : list string,
     analyze limit marker self log_data InterruptWatchdog.STOPPED =
     Return {| status := SUCCESS;
               errors := "Test killed, because no more interrupts were coming" :: more;
               retry := false |}).
Proof.
  intros Hdisabled.
  assert (forall data, analyze limit marker self data InterruptWatchdog.STOPPED =
          analyze_loop limit marker self
            {| status := SUCCESS;
               errors := ["Test killed, because no more interrupts were coming"];
               retry := false |} data) as Hstart.
  { intros data. unfold analyze. now rewrite Hdisabled. }
  split; [apply Hstart|]. split; [now rewrite Hstart|].
  intros Hrules. rewrite Hstart.
  destruct (analyze_loop_sets_nothing self log_data Hrules
              {| status := SUCCESS;
                 errors := ["Test killed, because no more interrupts were coming"];
                 retry := false |}) as (r' & Hloop & Hstatus & Hretry).
  pose proof (analyze_loop_errors _ _ _ _ Hloop) as [more Hmore].
  exists more. rewrite Hloop. f_equal.
  destruct r' as [s e r]. cbn in Hstatus, Hretry, Hmore. now subst.
Qed.
End AnalyzerFacts.

(** * The analyzer on concrete runs *)

(** A disabled test with a non-empty log and a stopped watchdog. *)
Lemma analyze_disabled_witness :
  analyze 4300 "##EXPECT##"
    {| test_spec := {| disabled := true; expect_timeout := false;
                       expect_stdout := None; expect_exit_codes := None |};
       config := [] |}
    [("panic", ["KERNEL PANIC"])] InterruptWatchdog.STOPPED =
  Return {| status := DISABLED; errors := []; retry := false |}.
Proof. apply analyze_disabled. reflexivity. Defined.

(** A panicked run with one unexpected and one unparsable exit code. *)
Lemma check_exit_codes_panic_witness :
  check_exit_codes 4300 {| status := PANIC; errors := ["KERNEL PANIC"]; retry := false |}
    ["1"; "x"] [0] (Some FAILED) =
  Return {| status := PANIC; errors := ["KERNEL PANIC"]; retry := false |}.
Proof. apply check_exit_codes_panic. reflexivity. Defined.

(** A timed out run without exit code. *)
Lemma check_exit_codes_missing_witness :
  check_exit_codes 4300 {| status := TIMEOUT; errors := ["Test execution timeout"]; retry := false |}
    [] [0] (Some FAILED) =
  Return {| status := TIMEOUT;
            errors := ["Test execution timeout"; "Missing exit code!"];
            retry := false |}.
Proof.
  refine (check_exit_codes_missing 4300
            {| status := TIMEOUT; errors := ["Test execution timeout"]; retry := false |}
            [0] (Some FAILED) _).
  discriminate.
Defined.

(** C3, the claim as stated fails: for the lines "##EXPECT##hi" and
    "##EXPECT##world\n" the text compared is "hworl" (the first line loses
    its last character, the line at the last index its last two), so with
    the expected output "hiworld" a mismatch is recorded.  And against an
    expected output that is empty nothing is compared: the text "x" differs
    from it and no error is recorded. *)
Lemma check_expect_stdout_hiworld_mismatch :
  actual_stdout_of "##EXPECT##" ["##EXPECT##hi"; "##EXPECT##world" +:+ String Py.LF ""] = "hworl" /\
  check_expect_stdout "##EXPECT##" (TestResult_new SUCCESS)
    ["##EXPECT##hi"; "##EXPECT##world" +:+ String Py.LF ""]
    {| disabled := false; expect_timeout := false;
       expect_stdout := Some "hiworld"; expect_exit_codes := None |}
    (Some FAILED) =
  {| status := FAILED;
     errors := ["Expected output:" +:+ String Py.LF "'hiworld'";
                "Actual output:" +:+ String Py.LF "'hworl'"];
     retry := false |} /\
  actual_stdout_of "##EXPECT##" ["##EXPECT##x" +:+ String Py.LF (String Py.LF "")] = "x" /\
  check_expect_stdout "##EXPECT##" (TestResult_new SUCCESS)
    ["##EXPECT##x" +:+ String Py.LF (String Py.LF "")]
    {| disabled := false; expect_timeout := false;
       expect_stdout := Some ""; expect_exit_codes := None |}
    (Some FAILED) = TestResult_new SUCCESS.
Proof. repeat split; reflexivity. Defined.

(** Lines that end in a line feed, the last one in two: the text compared is
    "hiworld" and nothing is recorded; against "hello" two errors are. *)
Lemma check_expect_stdout_exact_witness :
  check_expect_stdout "##EXPECT##" (TestResult_new SUCCESS)
    ["##EXPECT##hi" +:+ String Py.LF ""; "##EXPECT##world" +:+ String Py.LF (String Py.LF "")]
    {| disabled := false; expect_timeout := false;
       expect_stdout := Some "hiworld"; expect_exit_codes := None |}
    (Some FAILED) = TestResult_new SUCCESS /\
  check_expect_stdout "##EXPECT##" (TestResult_new SUCCESS)
    ["##EXPECT##hi" +:+ String Py.LF ""; "##EXPECT##world" +:+ String Py.LF (String Py.LF "")]
    {| disabled := false; expect_timeout := false;
       expect_stdout := Some "hello"; expect_exit_codes := None |}
    (Some FAILED) =
  {| status := FAILED;
     errors := ["Expected output:" +:+ String Py.LF "'hello'";
                "Actual output:" +:+ String Py.LF "'hiworld'"];
     retry := false |}.
Proof.
  split.
  - apply (check_expect_stdout_exact "##EXPECT##" (TestResult_new SUCCESS) _ _ _ "hiworld");
      [reflexivity | discriminate | reflexivity].
  - refine (proj2 (proj2 (check_expect_stdout_exact "##EXPECT##" (TestResult_new SUCCESS)
                            ["##EXPECT##hi" +:+ String Py.LF "";
                             "##EXPECT##world" +:+ String Py.LF (String Py.LF "")]
                            {| disabled := false; expect_timeout := false;
                               expect_stdout := Some "hello"; expect_exit_codes := None |}
                            (Some FAILED) "hello" eq_refl _)) _);
      [discriminate | vm_compute; discriminate].
Defined.

(** C4, the claim as stated fails: with the line "1", the expected code 0
    and a rule that sets no status, the two errors are appended and the
    status stays SUCCESS; it does not become FAILED. *)
Lemma check_exit_codes_mismatch_keeps_success :
  check_exit_codes 4300 (TestResult_new SUCCESS) ["1"] [0] None =
  Return {| status := SUCCESS;
            errors := ["Unexpected exit code 1"; "Expected exit code(s): 0"];
            retry := false |}.
Proof. reflexivity. Defined.

(** The round trip on a fresh result, with a rule that sets FAILED. *)
Lemma check_exit_codes_round_trip_witness :
  check_exit_codes 4300 (TestResult_new SUCCESS) ["0"] [0] (Some FAILED) =
  Return (TestResult_new SUCCESS) /\
  check_exit_codes 4300 (TestResult_new SUCCESS) ["1"] [0] (Some FAILED) =
  Return {| status := FAILED;
            errors := ["Unexpected exit code 1"; "Expected exit code(s): 0"];
            retry := false |}.
Proof. apply (check_exit_codes_round_trip 4300 (TestResult_new SUCCESS)). reflexivity. Defined.

(** C5, the claim as stated fails: on a result whose status is PANIC a line
    that does not parse changes nothing: no error, the status stays PANIC,
    no retry. *)
Lemma check_exit_codes_panic_unparsable :
  Py.int 4300 "abc" = None /\
  check_exit_codes 4300 {| status := PANIC; errors := []; retry := false |} ["abc"] [0] None =
  Return {| status := PANIC; errors := []; retry := false |}.
Proof. split; reflexivity. Defined.

(** An unexpected code, then a line that does not parse, then a line that is
    never read. *)
Lemma check_exit_codes_parse_failure_witness :
  check_exit_codes 4300 (TestResult_new SUCCESS) ["1"; "x"; "2"] [0] (Some PANIC) =
  Return {| status := FAILED;
            errors := ["Unexpected exit code 1"; "Failed to parse exit code x"];
            retry := true |}.
Proof.
  destruct (check_exit_codes_parse_failure 4300 (TestResult_new SUCCESS) ["1"; "x"; "2"] [0]
              (Some PANIC)) as (before & token & after & Hsplit & Hbefore & Htoken & Hresult).
  - discriminate.
  - right. left. reflexivity.
  - destruct before as [|first [|second before]]; cbn [app] in Hsplit.
    + injection Hsplit as <- _. discriminate.
    + injection Hsplit as <- <- <-. exact (Hresult ["2"]).
    + injection Hsplit as _ <- _. inversion Hbefore as [|? ? _ Hrest]. subst.
      inversion Hrest as [|? ? [v Hv] _]. discriminate.
Defined.

(** Two codes that parse, one of them unexpected. *)
Lemma check_exit_codes_all_parsed_witness :
  check_exit_codes 4300 (TestResult_new SUCCESS) ["0"; "3"] [0; 1] (Some FAILED) =
  Return {| status := FAILED;
            errors := ["Unexpected exit code 3"; "Expected exit code(s): 0, 1"];
            retry := false |}.
Proof.
  refine (check_exit_codes_all_parsed 4300 (TestResult_new SUCCESS) ["0"; "3"] [0; 1]
            (Some FAILED) _ _ _).
  - discriminate.
  - discriminate.
  - repeat constructor; [now exists 0 | now exists 3].
Defined.

(** C7, the claim as stated fails: over an empty bucket the mode
    exit_codes appends an error and turns SUCCESS into the status FAILED. *)
Lemma empty_bucket_exit_codes_missing :
  analyze_entry 4300 "##EXPECT##"
    {| test_spec := {| disabled := false; expect_timeout := false;
                       expect_stdout := None; expect_exit_codes := None |};
       config := [ {| name := "exit_codes"; mode := "exit_codes";
                      set_status := Some "FAILED" |} ] |}
    (TestResult_new SUCCESS) "exit_codes" [] =
  Return {| status := FAILED; errors := ["Missing exit code!"]; retry := false |}.
Proof. reflexivity. Defined.

(** An empty bucket under add_as_error_last: nothing is added. *)
Lemma empty_bucket_witness :
  analyze_entry 4300 "##EXPECT##"
    {| test_spec := {| disabled := false; expect_timeout := false;
                       expect_stdout := None; expect_exit_codes := None |};
       config := [ {| name := "asserts"; mode := "add_as_error_last";
                      set_status := Some "FAILED" |} ] |}
    (TestResult_new SUCCESS) "asserts" [] = Return (TestResult_new SUCCESS).
Proof.
  refine (proj1 (empty_bucket 4300 "##EXPECT##"
                   {| test_spec := {| disabled := false; expect_timeout := false;
                                      expect_stdout := None; expect_exit_codes := None |};
                      config := [ {| name := "asserts"; mode := "add_as_error_last";
                                     set_status := Some "FAILED" |} ] |}
                   (TestResult_new SUCCESS) "asserts"
                   {| name := "asserts"; mode := "add_as_error_last";
                      set_status := Some "FAILED" |} (Some FAILED) eq_refl eq_refl) _).
  right. left. reflexivity.
Defined.

(** A bucket of two lines under add_as_error_last: the first line is the
    error. *)
Lemma add_as_error_last_first_line_witness :
  analyze_entry 4300 "##EXPECT##"
    {| test_spec := {| disabled := false; expect_timeout := false;
                       expect_stdout := None; expect_exit_codes := None |};
       config := [ {| name := "asserts"; mode := "add_as_error_last";
                      set_status := Some "FAILED" |} ] |}
    (TestResult_new SUCCESS) "asserts" ["first assert"; "second assert"] =
  Return {| status := FAILED; errors := ["first assert"]; retry := false |}.
Proof.
  refine (add_as_error_last_first_line 4300 "##EXPECT##"
            {| test_spec := {| disabled := false; expect_timeout := false;
                               expect_stdout := None; expect_exit_codes := None |};
               config := [ {| name := "asserts"; mode := "add_as_error_last";
                              set_status := Some "FAILED" |} ] |}
            (TestResult_new SUCCESS) "asserts"
            {| name := "asserts"; mode := "add_as_error_last";
               set_status := Some "FAILED" |} (Some FAILED) "first assert" ["second assert"]
            eq_refl eq_refl eq_refl).
Defined.

(** C10, the claim as stated fails: after a stopped watchdog a rule of mode
    retry sets no status, and yet the result has the retry flag. *)
Lemma analyze_stopped_retry_rule :
  analyze 4300 "##EXPECT##"
    {| test_spec := {| disabled := false; expect_timeout := false;
                       expect_stdout := None; expect_exit_codes := None |};
       config := [ {| name := "pagefault"; mode := "retry"; set_status := None |} ] |}
    [("pagefault", [])] InterruptWatchdog.STOPPED =
  Return {| status := SUCCESS;
            errors := ["Test killed, because no more interrupts were coming";
                       "Retry caused by pagefault"];
            retry := true |}.
Proof. reflexivity. Defined.

(** A stopped watchdog followed by one rule that only collects errors. *)
Lemma analyze_stopped_witness :
  exists more : list string,
    analyze 4300 "##EXPECT##"
      {| test_spec := {| disabled := false; expect_timeout := false;
                         expect_stdout := None; expect_exit_codes := None |};
         config := [ {| name := "debug"; mode := "add_as_error"; set_status := None |} ] |}
      [("debug", ["late line"])] InterruptWatchdog.STOPPED =
    Return {| status := SUCCESS;
              errors := "Test killed, because no more interrupts were coming" :: more;
              retry := false |}.
Proof.
  refine (proj2 (proj2 (analyze_stopped 4300 "##EXPECT##"
                          {| test_spec := {| disabled := false; expect_timeout := false;
                                             expect_stdout := None; expect_exit_codes := None |};
                             config := [ {| name := "debug"; mode := "add_as_error";
                                            set_status := None |} ] |}
                          [("debug", ["late line"])] eq_refl)) _).
  repeat constructor.
  eapply collecting_rule_sets_nothing; [reflexivity | reflexivity | | ]; discriminate.
Defined.

(** * Properties of the runner *)

Section RunnerFacts.

Import Runner.

(** The constructor of a fresh result and [repr] of a test. *)
Variable fresh : string -> Runner.TestResult.
Variable repr_of : Test -> string.

(** The callback on a run whose result asks for a retry. *)
Lemma thread_callback_retry (s : state) (test worker : ref) :
  running_tests s !! repr_of (heap s test) = Some worker ->
  retry (result (heap s test)) = true ->
  thread_callback fresh repr_of test s =
  Return {| heap := <[test := {| name := name (heap s test);
                                run_number := run_number (heap s test);
                                result := fresh (name (heap s test)) |}]> (heap s);
            test_queue := test_queue s ++ [test];
            running_tests := delete (repr_of (heap s test)) (running_tests s);
            threads := threads s;
            calls := calls s
                     ++ get_logger (repr_of (heap s test))
                        :: (if panic (result (heap s test))
                            then [logger_info (repr_of (heap s test))
                                    ("Restarting test, because of "
                                     +:+ Py.join "" (errors (result (heap s test))))]
                            else [])
                     ++ [update_counter [ProgressBar.RUNNING] (Some (-1))] |}.
Proof.
  intros Hrunning Hretry. unfold thread_callback. rewrite Hrunning.
  cbn [emit set_result with_heap with_test_queue with_running_tests
       heap test_queue running_tests threads calls].
  rewrite Hretry.
  destruct (panic (result (heap s test)));
    unfold emit, set_result, with_heap, with_test_queue, with_running_tests;
    cbn [heap test_queue running_tests threads calls];
    rewrite <- !app_assoc; reflexivity.
Qed.

(** The callback on a run whose result does not ask for a retry. *)
Lemma thread_callback_terminal (s : state) (test worker : ref) :
  running_tests s !! repr_of (heap s test) = Some worker ->
  retry (result (heap s test)) = false ->
  thread_callback fresh repr_of test s =
  Return {| heap := heap s;
            test_queue := test_queue s;
            running_tests := delete (repr_of (heap s test)) (running_tests s);
            threads := threads s;
            calls := calls s
                     ++ [update_counter
                           [if bool_decide (status (result (heap s test)) = SUCCESS)
                            then ProgressBar.SUCCESS else ProgressBar.FAIL;
                            ProgressBar.RUNNING] None] |}.
Proof.
  intros Hrunning Hretry. unfold thread_callback. rewrite Hrunning.
  cbn [emit set_result with_heap with_test_queue with_running_tests
       heap test_queue running_tests threads calls].
  now rewrite Hretry.
Qed.

(** The callback raises exactly when the worker is not registered. *)
Lemma thread_callback_unregistered (s : state) (test : ref) :
  running_tests s !! repr_of (heap s test) = None ->
  thread_callback fresh repr_of test s = Raise (KeyError (repr_of (heap s test))).
Proof. intros H. unfold thread_callback. now rewrite H. Qed.

Lemma existsb_counts_terminal_retry (logger : string) (messages : list call) :
  Forall (fun c => counts_terminal c = false) messages ->
  existsb counts_terminal
    (get_logger logger :: messages ++ [update_counter [ProgressBar.RUNNING] (Some (-1))]) = false.
Proof.
  intros H. cbn [existsb counts_terminal orb]. rewrite existsb_app.
  cbn [existsb counts_terminal orb]. rewrite orb_false_r.
  induction H as [|c cs Hc _ IH]; [reflexivity|].
  cbn [existsb]. now rewrite Hc, IH.
Qed.

(** C9: when the completed run's result has the retry flag, the callback
    replaces the result by a fresh one, puts the same run at the end of the
    queue, takes one off the running counter and counts the run neither as
    passed nor as failed.  Consequently, whenever the callback counts a run
    as passed or failed, the result it leaves in the test has no retry
    flag (and is the result the run produced). *)
Theorem thread_callback_requeues_retry (s : state) (test worker : ref) :
  running_tests s !! repr_of (heap s test) = Some worker ->
  (retry (result (heap s test)) = true ->
   exists s' : state,
     thread_callback fresh repr_of test s = Return s' /\
     result (heap s' test) = fresh (name (heap s test)) /\
     test_queue s' = test_queue s ++ [test] /\
     running_tests s' !! repr_of (heap s test) = None /\
     exists news : list call,
       calls s' = calls s ++ news /\
       existsb counts_terminal news = false /\
       update_counter [ProgressBar.RUNNING] (Some (-1)) ∈ news) /\
  (forall (s' : state) (news : list call),
     thread_callback fresh repr_of test s = Return s' ->
     calls s' = calls s ++ news ->
     existsb counts_terminal news = true ->
     retry (result (heap s' test)) = false /\
     result (heap s' test) = result (heap s test) /\
     test_queue s' = test_queue s).
Proof.
  intros Hrunning. split.
  - intros Hretry. eexists. split; [now apply thread_callback_retry with worker|].
    cbn [heap test_queue running_tests calls].
    rewrite fn_lookup_insert, lookup_delete_eq. repeat split.
    eexists. split; [reflexivity|]. split.
    + apply existsb_counts_terminal_retry.
      destruct (panic _); repeat constructor.
    + rewrite elem_of_cons, elem_of_app, list_elem_of_singleton. auto.
  - intros s' news Hcall Hcalls Hcounted.
    destruct (retry (result (heap s test))) eqn:Hretry.
    + rewrite (thread_callback_retry s test worker Hrunning Hretry) in Hcall.
      apply Return_inj in Hcall. subst s'. cbn [calls] in Hcalls.
      apply app_inv_head in Hcalls. subst news.
      rewrite existsb_counts_terminal_retry in Hcounted; [discriminate|].
      destruct (panic _); repeat constructor.
    + rewrite (thread_callback_terminal s test worker Hrunning Hretry) in Hcall.
      apply Return_inj in Hcall. subst s'. now cbn [heap test_queue].
Qed.

(** ** What stays of a run that is over *)

Lemma run_test_effect (s s' : state) :
  run_test repr_of s = Return s' ->
  exists test : ref,
    test_queue s = test_queue s' ++ [test] /\
    threads s' = test :: threads s /\
    heap s' = heap s.
Proof.
  unfold run_test. intros H.
  destruct (last (test_queue s)) as [test|] eqn:Hlast; [|discriminate].
  apply Return_inj in H. subst s'. exists test.
  cbn [with_threads with_running_tests emit with_test_queue heap test_queue threads].
  apply last_Some in Hlast as [front Hfront]. rewrite Hfront.
  now rewrite removelast_last.
Qed.

Lemma thread_callback_effect (s s' : state) (test : ref) :
  thread_callback fresh repr_of test s = Return s' ->
  threads s' = threads s /\
  (forall other : ref, other <> test -> heap s' other = heap s other) /\
  (test_queue s' = test_queue s ++ [test] \/
   test_queue s' = test_queue s /\ retry (result (heap s' test)) = false).
Proof.
  intros H.
  destruct (running_tests s !! repr_of (heap s test)) as [worker|] eqn:Hrunning.
  - destruct (retry (result (heap s test))) eqn:Hretry.
    + rewrite (thread_callback_retry s test worker Hrunning Hretry) in H.
      apply Return_inj in H. subst s'. cbn [heap test_queue threads].
      split; [reflexivity|]. split; [|now left].
      intros other Hother. now rewrite fn_lookup_insert_ne.
    + rewrite (thread_callback_terminal s test worker Hrunning Hretry) in H.
      apply Return_inj in H. subst s'. cbn [heap test_queue threads]. auto.
  - now rewrite thread_callback_unregistered in H.
Qed.

Lemma elem_of_remove_first (x y : ref) (l : list ref) :
  x <> y -> x ∈ l -> x ∈ remove_first y l.
Proof.
  intros Hne. induction l as [|z l IH]; cbn [remove_first]; [easy|].
  rewrite elem_of_cons. intros [-> | Hin].
  - rewrite bool_decide_eq_false_2 by assumption. apply elem_of_cons. now left.
  - destruct (bool_decide (z = y)); [assumption|]. apply elem_of_cons. right. auto.
Qed.

Lemma settled_init (h : ref -> Test) (tests : list ref) :
  settled tests (run_tests_init h tests).
Proof. intros test Hin. now left. Qed.

Lemma settled_step (tests : list ref) (s s' : state) :
  step fresh repr_of s s' -> settled tests s -> settled tests s'.
Proof.
  intros Hstep Hsettled test Hin. specialize (Hsettled test Hin).
  destruct Hstep as [s s' Hrun | s writer r Hwriter | s caller s' Hcaller Hcall].
  - apply run_test_effect in Hrun as (started & Hqueue & Hthreads & Hheap).
    rewrite Hthreads, Hheap. rewrite Hqueue in Hsettled.
    rewrite elem_of_app, list_elem_of_singleton in Hsettled.
    rewrite elem_of_cons. intuition.
  - cbn [set_result with_heap heap test_queue threads].
    destruct (decide (test = writer)) as [->|Hne]; [auto|].
    now rewrite fn_lookup_insert_ne.
  - apply thread_callback_effect in Hcall as (Hthreads & Hheap & Hqueue).
    cbn [with_threads heap test_queue threads]. rewrite Hthreads.
    destruct (decide (test = caller)) as [->|Hne].
    + destruct Hqueue as [-> | [_ Hretry]]; [|auto].
      left. apply elem_of_app. right. now apply list_elem_of_singleton.
    + rewrite (Hheap test Hne).
      destruct Hsettled as [Hq | [Ht | Hr]]; [left | right; left | auto].
      * destruct Hqueue as [-> | [-> _]]; [apply elem_of_app; now left | assumption].
      * now apply elem_of_remove_first.
Qed.

Lemma settled_reachable (h : ref -> Test) (tests : list ref) (s : state) :
  reachable fresh repr_of h tests s -> settled tests s.
Proof.
  induction 1 as [|s s' _ IH Hstep]; [apply settled_init | eapply settled_step; eauto].
Qed.

(** X1: in every state [run_tests] reaches, a test that is neither in the
    queue nor with a worker has a result without the retry flag. *)
Theorem terminal_result_not_retry (h : ref -> Test) (tests : list ref) (s : state)
    (test : ref) :
  reachable fresh repr_of h tests s ->
  test ∈ tests ->
  test ∉ test_queue s ->
  test ∉ threads s ->
  retry (result (heap s test)) = false.
Proof.
  intros Hreach Hin Hqueue Hthreads.
  destruct (settled_reachable h tests s Hreach test Hin) as [? | [? | ?]];
    [contradiction | contradiction | assumption].
Qed.

(** A whole [_run] of a worker, with the callback, is a write of the result
    followed by the callback: the steps above cover it. *)
Lemma run_is_write_then_callback (s s' : state) (test : ref) (qemu_alive : bool)
    (session : Runner.TestResult -> Runner.TestResult) :
  test ∈ threads s ->
  _run test (Some (thread_callback fresh repr_of)) qemu_alive session s = Return s' ->
  exists written : state,
    step fresh repr_of s written /\
    step fresh repr_of written (with_threads (remove_first test (threads s')) s').
Proof.
  intros Hworker Hrun. unfold _run in Hrun.
  destruct qemu_alive; cbn [negb] in Hrun.
  - exists (set_result test (session (result (heap s test))) s).
    split; [now apply step_write | now apply step_callback].
  - exists (set_result test (set_retry (result (heap s test)) true) s).
    split; [now apply step_write | now apply step_callback].
Qed.

(** X2: when the machine is not alive, [_run] marks the result for a retry
    and calls back: the run is queued again with a fresh result. *)
Theorem run_not_alive_requeues (s : state) (test worker : ref)
    (session : Runner.TestResult -> Runner.TestResult) :
  let marked := set_result test (set_retry (result (heap s test)) true) s in
  running_tests s !! repr_of (heap marked test) = Some worker ->
  exists s' : state,
    _run test (Some (thread_callback fresh repr_of)) false session s = Return s' /\
    result (heap s' test) = fresh (name (heap s test)) /\
    test_queue s' = test_queue s ++ [test].
Proof.
  intros marked Hrunning.
  assert (retry (result (heap marked test)) = true) as Hretry.
  { unfold marked. cbn [set_result with_heap heap]. now rewrite fn_lookup_insert. }
  assert (name (heap marked test) = name (heap s test)) as Hname.
  { unfold marked. cbn [set_result with_heap heap]. now rewrite fn_lookup_insert. }
  change (_run test (Some (thread_callback fresh repr_of)) false session s)
    with (thread_callback fresh repr_of test marked).
  rewrite (thread_callback_retry marked test worker Hrunning Hretry).
  eexists. split; [reflexivity|]. cbn [heap test_queue].
  rewrite fn_lookup_insert. cbn [result]. now rewrite Hname.
Qed.

End RunnerFacts.

(** * The runner on a concrete run *)

(** The worker of "mult" calls back with a result that asks for a retry. *)
Lemma thread_callback_requeues_retry_witness :
  exists s' : Runner.state,
    Runner.thread_callback Runner.demo_fresh Runner.demo_repr 0%nat Runner.demo_failed
    = Return s' /\
    Runner.result (Runner.heap s' 0%nat) = Runner.demo_fresh "mult" /\
    Runner.test_queue s' = [1%nat; 0%nat].
Proof.
  destruct (proj1 (thread_callback_requeues_retry Runner.demo_fresh Runner.demo_repr
                     Runner.demo_failed 0%nat 0%nat eq_refl) eq_refl)
    as (s' & Hcall & Hresult & Hqueue & _).
  exists s'. repeat split; assumption.
Defined.

(** "mult" is started, passes and is counted: its result has no retry
    flag. *)
Lemma terminal_result_not_retry_witness :
  Runner.retry (Runner.result (Runner.heap Runner.demo_done 0%nat)) = false.
Proof.
  apply (terminal_result_not_retry Runner.demo_fresh Runner.demo_repr
           Runner.demo_heap [1%nat; 0%nat]).
  - apply Runner.reachable_step with Runner.demo_passed.
    + apply Runner.reachable_step with Runner.demo_started.
      * apply Runner.reachable_step with Runner.demo_init.
        -- apply Runner.reachable_init.
        -- apply Runner.step_run_test. reflexivity.
      * apply (Runner.step_write _ _ Runner.demo_started 0%nat). repeat constructor.
    + apply (Runner.step_callback _ _ Runner.demo_passed 0%nat Runner.demo_counted).
      * repeat constructor.
      * reflexivity.
  - repeat constructor.
  - cbn. rewrite list_elem_of_singleton. discriminate.
  - cbn. apply not_elem_of_nil.
Defined.

(** The machine of "mult" is not alive: the run is queued again. *)
Lemma run_not_alive_requeues_witness :
  exists s' : Runner.state,
    Runner._run 0%nat (Some (Runner.thread_callback Runner.demo_fresh Runner.demo_repr))
      false (fun r => r) Runner.demo_started = Return s' /\
    Runner.result (Runner.heap s' 0%nat) = Runner.demo_fresh "mult" /\
    Runner.test_queue s' = [1%nat; 0%nat].
Proof.
  exact (run_not_alive_requeues Runner.demo_fresh Runner.demo_repr Runner.demo_started
           0%nat 0%nat (fun r => r) eq_refl).
Defined.

(** * Properties of the scheduler *)

Section SchedulerFacts.

Import Runner.

Variable fresh : string -> Runner.TestResult.
Variable repr_of : Test -> string.
Variable config_threads : Z.

(** ** The state a step of the main thread or of a worker leaves *)

Lemma run_test_registers (s s' : state) :
  run_test repr_of s = Return s' ->
  exists test : ref,
    test_queue s = test_queue s' ++ [test] /\
    threads s' = test :: threads s /\
    heap s' = heap s /\
    running_tests s' = <[repr_of (heap s test) := test]> (running_tests s).
Proof.
  unfold run_test. intros H.
  destruct (last (test_queue s)) as [test|] eqn:Hlast; [|discriminate].
  apply Return_inj in H. subst s'. exists test.
  cbn [with_threads with_running_tests emit with_test_queue
       heap test_queue threads running_tests].
  apply last_Some in Hlast as [front Hfront]. rewrite Hfront.
  now rewrite removelast_last.
Qed.

Lemma run_test_empty (s : state) :
  test_queue s = [] -> run_test repr_of s = Raise IndexError.
Proof. unfold run_test. now intros ->. Qed.

Lemma thread_callback_unregisters (s s' : state) (test : ref) :
  thread_callback fresh repr_of test s = Return s' ->
  running_tests s' = delete (repr_of (heap s test)) (running_tests s) /\
  threads s' = threads s /\
  (forall other : ref,
     name (heap s' other) = name (heap s other) /\
     run_number (heap s' other) = run_number (heap s other)) /\
  (test_queue s' = test_queue s ++ [test] \/ test_queue s' = test_queue s).
Proof.
  intros H.
  destruct (running_tests s !! repr_of (heap s test)) as [worker|] eqn:Hrunning.
  - destruct (retry (result (heap s test))) eqn:Hretry.
    + rewrite (thread_callback_retry fresh repr_of s test worker Hrunning Hretry) in H.
      apply Return_inj in H. subst s'. cbn [heap test_queue threads running_tests].
      repeat split; [| |now left];
        (destruct (decide (other = test)) as [->|Hne];
         [now rewrite fn_lookup_insert | now rewrite fn_lookup_insert_ne]).
    + rewrite (thread_callback_terminal fresh repr_of s test worker Hrunning Hretry) in H.
      apply Return_inj in H. subst s'. cbn [heap test_queue threads running_tests].
      repeat split. now right.
  - now rewrite thread_callback_unregistered in H.
Qed.

(** A step of the scheduler leaves the shared state as it is, or is a step
    of the runner. *)
Lemma sched_is_step (c c' : main_pc * state) :
  sched fresh repr_of config_threads c c' ->
  c'.2 = c.2 \/ step fresh repr_of c.2 c'.2.
Proof.
  destruct 1; cbn [snd]; auto; right;
    [now apply step_run_test | now apply step_run_test
     | now apply step_write | now apply step_callback].
Qed.

Lemma sched_reachable_is_reachable (h : ref -> Test) (tests : list ref)
    (c : main_pc * state) :
  sched_reachable fresh repr_of config_threads h tests c ->
  reachable fresh repr_of h tests c.2.
Proof.
  induction 1 as [|c c' _ IH Hstep]; [apply reachable_init|].
  destruct (sched_is_step c c' Hstep) as [-> | Hstate]; [exact IH|].
  now apply reachable_step with c.2.
Qed.

(** ** Bounded concurrency *)

Lemma slots_kept (h : ref -> Test) (tests : list ref) (c : main_pc * state) :
  sched_reachable fresh repr_of config_threads h tests c ->
  (size (running_tests c.2) + slots_wanted c.1 <= Z.to_nat config_threads)%nat.
Proof.
  induction 1 as [|c c' _ IH Hstep].
  - cbn. rewrite map_size_empty. lia.
  - destruct Hstep as [s | n s Hq | n s Hq | n s s' Hrun | s Hq | s Hq | s Hr | s Hr | s
                      | s Hq | s Hq | s Hfree | s Hfull | s s' Hrun
                      | pc s test r Hworker | pc s test s' Hworker Hcall];
      cbn [fst snd slots_wanted] in *; try lia.
    + apply run_test_registers in Hrun as (test & _ & _ & _ & ->).
      rewrite map_size_insert. destruct (running_tests s !! _); cbn; lia.
    + apply run_test_registers in Hrun as (test & _ & _ & _ & ->).
      rewrite map_size_insert. destruct (running_tests s !! _); cbn; lia.
    + exact IH.
    + apply thread_callback_unregisters in Hcall as (Hrunning & _).
      unfold with_threads. cbn [running_tests]. rewrite Hrunning, map_size_delete.
      destruct (running_tests s !! _); cbn; lia.
Qed.

(** X4: at every point [run_tests] reaches, the number of registered workers
    is at most [config.threads] (none when that is not positive); and where
    the main thread is about to start a worker, one slot is free. *)
Theorem running_tests_bounded (h : ref -> Test) (tests : list ref) (pc : main_pc)
    (s : state) :
  sched_reachable fresh repr_of config_threads h tests (pc, s) ->
  Z.of_nat (size (running_tests s)) <= Z.max 0 config_threads /\
  (pc = Starting -> Z.of_nat (size (running_tests s)) < config_threads).
Proof.
  intros Hreach. apply slots_kept in Hreach. cbn [fst snd] in Hreach.
  split; [lia|]. intros ->. cbn [slots_wanted] in Hreach. lia.
Qed.

(** ** Workers stay registered *)

Lemma remove_first_Permutation (x : ref) (l : list ref) :
  x ∈ l -> l ≡ₚ x :: remove_first x l.
Proof.
  induction l as [|y l IH]; [now intros ?%elem_of_nil|].
  cbn [remove_first]. case_bool_decide as Heq.
  - now subst.
  - intros [?|Hin]%elem_of_cons; [congruence|].
    rewrite (IH Hin) at 1. apply Permutation_swap.
Qed.

Lemma remove_first_subset (x y : ref) (l : list ref) :
  y ∈ remove_first x l -> y ∈ l.
Proof.
  induction l as [|z l IH]; cbn [remove_first]; [easy|].
  case_bool_decide; rewrite !elem_of_cons; intuition.
Qed.

Section Registered.

Variable h : ref -> Test.
Variable tests : list ref.

(** [repr] reads the name and the run number only, and tells the tests of
    the run apart. *)
Hypothesis repr_of_identity :
  forall t t' : Test, name t = name t' -> run_number t = run_number t' -> repr_of t = repr_of t'.
Hypothesis repr_of_distinct :
  forall a b : ref, a ∈ tests -> b ∈ tests -> repr_of (h a) = repr_of (h b) -> a = b.

Lemma registered_keys (workers : list ref) :
  NoDup workers ->
  (forall test, test ∈ workers -> test ∈ tests) ->
  NoDup ((fun test => (repr_of (h test), test)) <$> workers).*1.
Proof.
  intros Hnodup Hin. rewrite <- list_fmap_compose.
  apply NoDup_fmap_2_strong; [|assumption].
  intros a b Ha Hb Heq. cbn in Heq. apply repr_of_distinct; auto.
Qed.

Lemma registered_lookup (workers : list ref) (test : ref) :
  NoDup workers ->
  (forall worker, worker ∈ workers -> worker ∈ tests) ->
  test ∈ workers ->
  registered repr_of h workers !! repr_of (h test) = Some test.
Proof.
  intros Hnodup Hin Htest. apply elem_of_list_to_map_1.
  - now apply registered_keys.
  - apply list_elem_of_fmap. now exists test.
Qed.

Lemma registered_lookup_other (workers : list ref) (test : ref) :
  (forall worker, worker ∈ workers -> worker ∈ tests) ->
  test ∈ tests ->
  test ∉ workers ->
  registered repr_of h workers !! repr_of (h test) = None.
Proof.
  intros Hin Htest Hnot. apply not_elem_of_list_to_map_1.
  rewrite <- list_fmap_compose. intros (worker & Heq & Hworker)%list_elem_of_fmap.
  cbn in Heq. apply repr_of_distinct in Heq; auto. now subst.
Qed.

Lemma registered_delete (workers : list ref) (test : ref) :
  NoDup workers ->
  (forall worker, worker ∈ workers -> worker ∈ tests) ->
  test ∈ tests ->
  delete (repr_of (h test)) (registered repr_of h workers)
  = registered repr_of h (remove_first test workers).
Proof.
  intros Hnodup Hin Htest.
  induction workers as [|worker workers IH]; cbn [remove_first].
  - apply delete_empty.
  - apply NoDup_cons in Hnodup as [Hfresh Hnodup].
    unfold registered. cbn [fmap list_fmap list_to_map foldr uncurry].
    change (list_to_map ((fun t => (repr_of (h t), t)) <$> workers))
      with (registered repr_of h workers).
    case_bool_decide as Heq.
    + subst worker. rewrite delete_insert_eq. apply delete_id.
      apply registered_lookup_other; auto.
      intros w Hw. apply Hin. now right.
    + rewrite delete_insert_ne.
      * rewrite IH; [reflexivity | assumption |].
        intros w Hw. apply Hin. now right.
      * intros Hkey. apply Heq. symmetry. apply repr_of_distinct; auto.
        apply Hin. now left.
Qed.

Lemma same_repr (s : state) (test : ref) :
  name (heap s test) = name (h test) /\ run_number (heap s test) = run_number (h test) ->
  repr_of (heap s test) = repr_of (h test).
Proof. intros [Hname Hrun]. now apply repr_of_identity. Qed.

Lemma well_registered_init :
  NoDup tests -> well_registered repr_of h tests (run_tests_init h tests).
Proof.
  intros Hnodup. unfold well_registered. cbn [run_tests_init heap test_queue threads running_tests].
  rewrite app_nil_r. repeat split; auto.
Qed.

Lemma well_registered_step (s s' : state) :
  step fresh repr_of s s' ->
  well_registered repr_of h tests s ->
  well_registered repr_of h tests s'.
Proof.
  intros Hstep (Hnodup & Hin & Hheap & Hrunning).
  destruct Hstep as [s s' Hrun | s writer r Hwriter | s caller s' Hcaller Hcall].
  - apply run_test_registers in Hrun as (test & Hqueue & Hthreads & Hsame & Hmap).
    rewrite Hqueue in Hnodup, Hin. unfold well_registered.
    rewrite Hthreads, Hsame, Hmap, Hrunning. repeat split.
    + now rewrite <- app_assoc in Hnodup.
    + intros t Ht. apply Hin. now rewrite <- app_assoc.
    + apply Hheap.
    + apply Hheap.
    + now rewrite (same_repr s test (Hheap test)).
  - unfold well_registered. cbn [set_result with_heap heap test_queue threads running_tests].
    repeat split; try assumption;
      (destruct (decide (test = writer)) as [->|Hne];
       [rewrite fn_lookup_insert; cbn; apply Hheap
       | rewrite fn_lookup_insert_ne by congruence; apply Hheap]).
  - apply thread_callback_unregisters in Hcall as (Hmap & Hthreads & Hsame & Hqueue).
    assert (Hworkers : NoDup (threads s)) by (now apply NoDup_app in Hnodup as (_ & _ & ?)).
    assert (Hcaller_test : caller ∈ tests) by (apply Hin, elem_of_app; now right).
    unfold well_registered, with_threads. cbn [heap test_queue threads running_tests].
    rewrite Hthreads, Hmap, Hrunning. repeat split.
    + rewrite (remove_first_Permutation caller (threads s) Hcaller) in Hnodup.
      destruct Hqueue as [-> | ->].
      * rewrite <- app_assoc. exact Hnodup.
      * rewrite <- Permutation_middle in Hnodup. now apply NoDup_cons in Hnodup as [_ ?].
    + intros t [Ht | Ht%remove_first_subset]%elem_of_app.
      * destruct Hqueue as [Hq | Hq]; rewrite Hq in Ht.
        -- apply elem_of_app in Ht as [Ht | ->%list_elem_of_singleton]; [|assumption].
           apply Hin, elem_of_app. now left.
        -- apply Hin, elem_of_app. now left.
      * apply Hin, elem_of_app. now right.
    + rewrite (proj1 (Hsame test)). apply Hheap.
    + rewrite (proj2 (Hsame test)). apply Hheap.
    + rewrite (same_repr s caller (Hheap caller)).
      apply registered_delete; auto.
      intros w Hw. apply Hin, elem_of_app. now right.
Qed.

Lemma well_registered_reachable (s : state) :
  NoDup tests ->
  reachable fresh repr_of h tests s ->
  well_registered repr_of h tests s.
Proof.
  intros Hnodup. induction 1 as [|s s' _ IH Hstep];
    [now apply well_registered_init | now apply well_registered_step with s].
Qed.

Lemma registered_size (s : state) :
  NoDup tests ->
  reachable fresh repr_of h tests s ->
  size (running_tests s) = length (threads s).
Proof.
  intros Hnodup Hreach.
  destruct (well_registered_reachable s Hnodup Hreach) as (Hnd & Hin & _ & Hrunning).
  rewrite Hrunning. unfold registered.
  rewrite map_size_list_to_map; [apply length_fmap|].
  apply registered_keys.
  - now apply NoDup_app in Hnd as (_ & _ & ?).
  - intros w Hw. apply Hin, elem_of_app. now right.
Qed.

(** X5: when [repr] reads the name and the run number only and tells the
    tests of the run apart, then in every state [run_tests] reaches each
    worker that has yet to call back is registered under the [repr] of its
    test: its callback finds it and does not raise [KeyError].
    [running_tests] holds these workers and no other, so they are as many
    as its entries, hence at most [config.threads]; and no test is at once
    in the queue and with a worker that has yet to call back, or twice in
    either.  (The thread of a worker that has called back may live on; of
    the live threads nothing is said.) *)
Theorem workers_registered (pc : main_pc) (s : state) :
  NoDup tests ->
  sched_reachable fresh repr_of config_threads h tests (pc, s) ->
  (forall test : ref,
     test ∈ threads s ->
     running_tests s !! repr_of (heap s test) = Some test /\
     exists s' : state, thread_callback fresh repr_of test s = Return s') /\
  (forall (key : string) (test : ref),
     running_tests s !! key = Some test ->
     test ∈ threads s /\ key = repr_of (heap s test)) /\
  size (running_tests s) = length (threads s) /\
  Z.of_nat (length (threads s)) <= Z.max 0 config_threads /\
  NoDup (test_queue s ++ threads s).
Proof.
  intros Hnodup Hreach.
  pose proof (slots_kept h tests (pc, s) Hreach) as Hslots. cbn [fst snd] in Hslots.
  apply sched_reachable_is_reachable in Hreach. cbn [snd] in Hreach.
  pose proof (registered_size s Hnodup Hreach) as Hsize.
  destruct (well_registered_reachable s Hnodup Hreach) as (Hnd & Hin & Hheap & Hrunning).
  assert (Hworkers : NoDup (threads s)) by (now apply NoDup_app in Hnd as (_ & _ & ?)).
  assert (Hall : forall w, w ∈ threads s -> w ∈ tests)
    by (intros w Hw; apply Hin, elem_of_app; now right).
  assert (Hfound : forall test, test ∈ threads s ->
                   running_tests s !! repr_of (heap s test) = Some test).
  { intros test Htest. rewrite Hrunning, (same_repr s test (Hheap test)).
    now apply registered_lookup. }
  split; [|split; [|split; [|split]]].
  - intros test Htest. split; [now apply Hfound|].
    specialize (Hfound test Htest).
    destruct (retry (result (heap s test))) eqn:Hretry.
    + eexists. now apply thread_callback_retry with test.
    + eexists. now apply thread_callback_terminal with test.
  - intros key test Hentry. rewrite Hrunning in Hentry.
    apply elem_of_list_to_map_2 in Hentry.
    apply list_elem_of_fmap in Hentry as (worker & [= -> ->] & Hworker).
    split; [assumption|]. symmetry. apply same_repr, Hheap.
  - exact Hsize.
  - lia.
  - exact Hnd.
Qed.

End Registered.

(** ** The main thread starts a worker only when a test waits *)

Lemma queue_kept_nonempty (h : ref -> Test) (tests : list ref) (c : main_pc * state) :
  sched_reachable fresh repr_of config_threads h tests c ->
  match c.1 with
  | BootStarting _ | AtIfSlots | Starting => test_queue c.2 <> []
  | _ => True
  end.
Proof.
  induction 1 as [|c c' _ IH Hstep]; [exact I|].
  destruct Hstep as [s | n s Hq | n s Hq | n s s' Hrun | s Hq | s Hq | s Hr | s Hr | s
                    | s Hq | s Hq | s Hfree | s Hfull | s s' Hrun
                    | pc s test r Hworker | pc s test s' Hworker Hcall];
    cbn [fst snd] in *; try exact I; try assumption.
  apply thread_callback_unregisters in Hcall as (_ & _ & _ & Hqueue).
  unfold with_threads. cbn [test_queue].
  destruct pc; try exact I;
    (destruct Hqueue as [-> | ->]; [now destruct (test_queue s) | exact IH]).
Qed.

(** X6: wherever the main thread of [run_tests] calls [run_test], in the
    first loop or in the second, the queue holds a test, whatever the
    workers did since the main thread looked: [test_queue.pop()] does not
    raise [IndexError] and [run_test] returns. *)
Theorem run_test_finds_test (h : ref -> Test) (tests : list ref) (pc : main_pc)
    (s : state) :
  sched_reachable fresh repr_of config_threads h tests (pc, s) ->
  pc = Starting \/ (exists rounds : nat, pc = BootStarting rounds) ->
  exists (test : ref) (s' : state),
    last (test_queue s) = Some test /\
    run_test repr_of s = Return s' /\
    threads s' = test :: threads s.
Proof.
  intros Hreach Hpc. apply queue_kept_nonempty in Hreach. cbn [fst snd] in Hreach.
  assert (Hqueue : test_queue s <> []) by (destruct Hpc as [-> | [n ->]]; exact Hreach).
  destruct (last (test_queue s)) as [test|] eqn:Hlast.
  - exists test. unfold run_test. rewrite Hlast. eexists. repeat split.
  - now apply last_None in Hlast.
Qed.

(** ** A test that is queued again is the next to run *)

(** X7: the queue is a stack.  When [repr] reads the name and the run
    number only, a callback with the retry flag followed by [run_test]
    starts the same test again, ahead of every test that waits: the queue
    and the registered workers are as before the callback, and the test has
    a fresh result. *)
Theorem retried_test_runs_next (s : state) (test : ref) :
  (forall t t' : Test,
     name t = name t' -> run_number t = run_number t' -> repr_of t = repr_of t') ->
  running_tests s !! repr_of (heap s test) = Some test ->
  retry (result (heap s test)) = true ->
  exists s' s'' : state,
    thread_callback fresh repr_of test s = Return s' /\
    run_test repr_of s' = Return s'' /\
    test_queue s'' = test_queue s /\
    running_tests s'' = running_tests s /\
    threads s'' = test :: threads s /\
    result (heap s'' test) = fresh (name (heap s test)).
Proof.
  intros Hrepr Hrunning Hretry.
  eexists. eexists. split; [now apply thread_callback_retry with test|].
  unfold run_test. cbn [test_queue]. rewrite last_snoc.
  split; [reflexivity|].
  cbn [with_threads with_running_tests emit with_test_queue
       heap test_queue threads running_tests].
  rewrite removelast_last, fn_lookup_insert. repeat split.
  rewrite (Hrepr _ (heap s test)) by reflexivity.
  now apply insert_delete_id.
Qed.

(** ** The counters account for every test *)





End SchedulerFacts.

(** * A retry that is lost *)

Section LostRetry.

Import Runner.

Variable fresh : string -> Runner.TestResult.
Variable repr_of : Test -> string.
Variable config_threads : Z.
Variable h : ref -> Test.
Variable tests : list ref.

Hypothesis repr_of_identity :
  forall t t' : Test, name t = name t' -> run_number t = run_number t' -> repr_of t = repr_of t'.
Hypothesis some_thread : 0 < config_threads.

Lemma run_test_busy (queue : list ref) (test : ref) (s : state) :
  idle (queue ++ [test]) s ->
  exists s' : state, run_test repr_of s = Return s' /\ busy repr_of queue test s'.
Proof.
  intros (Hqueue & Hthreads & Hrunning).
  assert (Hlast : last (test_queue s) = Some test) by (rewrite Hqueue; apply last_snoc).
  eexists. split; [unfold run_test; rewrite Hlast; reflexivity|].
  unfold busy, with_threads, with_running_tests, emit, with_test_queue.
  cbn [heap test_queue threads running_tests].
  now rewrite Hqueue, removelast_last, Hthreads, Hrunning.
Qed.

(** The worker writes [r] and calls back. *)
Lemma written_registered (queue : list ref) (test : ref) (r : Runner.TestResult)
    (s : state) :
  busy repr_of queue test s ->
  running_tests (set_result test r s) !! repr_of (heap (set_result test r s) test)
  = Some test.
Proof.
  intros (_ & _ & Hrunning). cbn [set_result with_heap heap running_tests].
  rewrite fn_lookup_insert, Hrunning.
  rewrite (repr_of_identity _ (heap s test)) by reflexivity.
  apply lookup_insert_eq.
Qed.

Lemma written_unregistered (queue : list ref) (test : ref) (r : Runner.TestResult)
    (s : state) :
  busy repr_of queue test s ->
  delete (repr_of (heap (set_result test r s) test)) (running_tests (set_result test r s))
  = ∅.
Proof.
  intros (_ & _ & Hrunning). cbn [set_result with_heap heap running_tests].
  rewrite fn_lookup_insert, Hrunning.
  rewrite (repr_of_identity _ (heap s test)) by reflexivity.
  now rewrite delete_insert_eq, delete_empty.
Qed.

Lemma worker_completes (pc : main_pc) (queue : list ref) (test : ref) (s : state) :
  sched_reachable fresh repr_of config_threads h tests (pc, s) ->
  busy repr_of queue test s ->
  exists s' : state, sched_reachable fresh repr_of config_threads h tests (pc, s') /\ idle queue s'.
Proof.
  intros Hreach Hbusy. pose proof Hbusy as (Hqueue & Hthreads & _).
  set (r := set_retry (result (heap s test)) false).
  pose proof (thread_callback_terminal fresh repr_of (set_result test r s) test test
                (written_registered queue test r s Hbusy)) as Hcall.
  rewrite (written_unregistered queue test r s Hbusy) in Hcall.
  eexists. split.
  - eapply sched_reachable_step.
    + eapply sched_reachable_step; [exact Hreach|].
      apply (sched_write fresh repr_of config_threads pc s test r).
      rewrite Hthreads. apply list_elem_of_here.
    + eapply (sched_callback fresh repr_of config_threads pc (set_result test r s) test).
      * cbn [set_result with_heap threads]. rewrite Hthreads. apply list_elem_of_here.
      * apply Hcall. cbn [set_result with_heap heap]. now rewrite fn_lookup_insert.
  - unfold idle, with_threads. cbn [set_result with_heap test_queue threads running_tests].
    rewrite Hthreads. cbn [remove_first]. now rewrite bool_decide_eq_true_2.
Qed.

(** The worker finds its machine dead, asks for a retry and calls back. *)
Lemma worker_retries (pc : main_pc) (test : ref) (s : state) :
  sched_reachable fresh repr_of config_threads h tests (pc, s) ->
  busy repr_of [] test s ->
  exists s' : state,
    sched_reachable fresh repr_of config_threads h tests (pc, s') /\ idle [test] s'.
Proof.
  intros Hreach Hbusy. pose proof Hbusy as (Hqueue & Hthreads & _).
  set (r := set_retry (result (heap s test)) true).
  pose proof (thread_callback_retry fresh repr_of (set_result test r s) test test
                (written_registered [] test r s Hbusy)) as Hcall.
  rewrite (written_unregistered [] test r s Hbusy) in Hcall.
  eexists. split.
  - eapply sched_reachable_step.
    + eapply sched_reachable_step; [exact Hreach|].
      apply (sched_write fresh repr_of config_threads pc s test r).
      rewrite Hthreads. apply list_elem_of_here.
    + eapply (sched_callback fresh repr_of config_threads pc (set_result test r s) test).
      * cbn [set_result with_heap threads]. rewrite Hthreads. apply list_elem_of_here.
      * apply Hcall. cbn [set_result with_heap heap]. now rewrite fn_lookup_insert.
  - unfold idle, with_threads. cbn [set_result with_heap test_queue threads running_tests].
    rewrite Hthreads, Hqueue. cbn [remove_first]. now rewrite bool_decide_eq_true_2.
Qed.

Lemma boot_skips (rounds : nat) (s : state) :
  sched_reachable fresh repr_of config_threads h tests (Booting rounds, s) ->
  test_queue s = [] ->
  sched_reachable fresh repr_of config_threads h tests (Booting 0, s).
Proof.
  induction rounds as [|rounds IH]; intros Hreach Hqueue; [exact Hreach|].
  apply IH; [|exact Hqueue].
  eapply sched_reachable_step; [exact Hreach | now apply sched_boot_skip].
Qed.

(** The second loop takes the tests one after the other, down to the first
    of the list, which it leaves with its worker. *)
Lemma while_runs_all (test : ref) (queue : list ref) (s : state) :
  sched_reachable fresh repr_of config_threads h tests (AtWhileQueue, s) ->
  idle (test :: queue) s ->
  exists s' : state,
    sched_reachable fresh repr_of config_threads h tests (AtWhileQueue, s') /\
    busy repr_of [] test s'.
Proof.
  revert s. induction queue as [|next queue IH] using rev_ind; intros s Hreach Hidle.
  - destruct (run_test_busy [] test s Hidle) as (s' & Hrun & Hbusy).
    destruct Hidle as (Hqueue & _ & Hrunning).
    exists s'. split; [|exact Hbusy].
    eapply sched_reachable_step; [|apply sched_start; exact Hrun].
    eapply sched_reachable_step;
      [|apply sched_slots_free; rewrite Hrunning, map_size_empty; cbn; lia].
    eapply sched_reachable_step; [|apply sched_if_queue; now rewrite Hqueue].
    eapply sched_reachable_step; [|apply sched_refresh].
    eapply sched_reachable_step; [exact Hreach|].
    apply sched_while_queue. now rewrite Hqueue.
  - change (test :: queue ++ [next]) with ((test :: queue) ++ [next]) in Hidle.
    destruct (run_test_busy (test :: queue) next s Hidle) as (s1 & Hrun & Hbusy).
    destruct Hidle as (Hqueue & _ & Hrunning).
    assert (sched_reachable fresh repr_of config_threads h tests (AtWhileQueue, s1)) as Hstarted.
    { eapply sched_reachable_step; [|apply sched_start; exact Hrun].
      eapply sched_reachable_step;
        [|apply sched_slots_free; rewrite Hrunning, map_size_empty; cbn; lia].
      eapply sched_reachable_step; [|apply sched_if_queue; rewrite Hqueue; now destruct queue].
      eapply sched_reachable_step; [|apply sched_refresh].
      eapply sched_reachable_step; [exact Hreach|].
      apply sched_while_queue. rewrite Hqueue. now destruct queue. }
    destruct (worker_completes AtWhileQueue (test :: queue) next s1 Hstarted Hbusy)
      as (s2 & Hreach2 & Hidle2).
    now apply IH with s2.
Qed.

(** So does the first loop, as far as its rounds go. *)
Lemma boot_runs (rounds : nat) (test : ref) (queue : list ref) (s : state) :
  sched_reachable fresh repr_of config_threads h tests (Booting rounds, s) ->
  idle (test :: queue) s ->
  exists s' : state,
    sched_reachable fresh repr_of config_threads h tests (AtWhileQueue, s') /\
    busy repr_of [] test s'.
Proof.
  revert queue s. induction rounds as [|rounds IH]; intros queue s Hreach Hidle.
  - apply while_runs_all with queue s; [|exact Hidle].
    eapply sched_reachable_step; [exact Hreach | apply sched_boot_done].
  - destruct queue as [|next queue _] using rev_ind.
    + destruct (run_test_busy [] test s Hidle) as (s' & Hrun & Hbusy).
      destruct Hidle as (Hqueue & _).
      exists s'. split; [|exact Hbusy].
      eapply sched_reachable_step; [|apply sched_boot_done].
      apply boot_skips with rounds; [|now destruct Hbusy].
      eapply sched_reachable_step; [|apply sched_boot_start; exact Hrun].
      eapply sched_reachable_step; [exact Hreach|].
      apply sched_boot_found. now rewrite Hqueue.
    + change (test :: queue ++ [next]) with ((test :: queue) ++ [next]) in Hidle.
      destruct (run_test_busy (test :: queue) next s Hidle) as (s1 & Hrun & Hbusy).
      destruct Hidle as (Hqueue & _).
      assert (sched_reachable fresh repr_of config_threads h tests (Booting rounds, s1))
        as Hstarted.
      { eapply sched_reachable_step; [|apply sched_boot_start; exact Hrun].
        eapply sched_reachable_step; [exact Hreach|].
        apply sched_boot_found. rewrite Hqueue. now destruct queue. }
      destruct (worker_completes (Booting rounds) (test :: queue) next s1 Hstarted Hbusy)
        as (s2 & Hreach2 & Hidle2).
      now apply IH with queue s2.
Qed.

(** X18: a retry can be lost.  The main thread reads the queue and the
    registered workers for [while test_queue or running_tests] without the
    lock.  With at least one thread and a [repr] that reads the name and
    the run number only, whatever the tests are, [run_tests] can leave its
    loop while the first test of the list waits in the queue for its retry:
    the main thread finds the queue empty, the last worker asks for a
    retry and calls back, and the main thread finds no worker. *)
Theorem retry_can_be_lost (test : ref) (others : list ref) :
  tests = test :: others ->
  exists s : state,
    sched_reachable fresh repr_of config_threads h tests (Finished, s) /\
    test_queue s = [test] /\ threads s = [] /\ running_tests s = ∅.
Proof.
  intros Htests.
  destruct (boot_runs (Z.to_nat config_threads) test others (run_tests_init h tests))
    as (s1 & Hreach1 & Hbusy1).
  { apply sched_reachable_init. }
  { rewrite Htests. now unfold idle. }
  assert (sched_reachable fresh repr_of config_threads h tests (AtWhileRunning, s1)) as Hread.
  { eapply sched_reachable_step; [exact Hreach1|].
    apply sched_while_queue_empty. now destruct Hbusy1. }
  destruct (worker_retries AtWhileRunning test s1 Hread Hbusy1)
    as (s2 & Hreach2 & Hqueue & Hthreads & Hrunning).
  exists s2. repeat split; try assumption.
  eapply sched_reachable_step; [exact Hreach2 | now apply sched_while_exit].
Qed.

End LostRetry.

(** * The scheduler on a concrete run *)

(** With one thread, the first loop finds "mult" at the end of the queue. *)
Lemma demo_sched_found :
  Runner.sched_reachable Runner.demo_fresh Runner.demo_repr 1 Runner.demo_heap
    [1%nat; 0%nat] (Runner.BootStarting 0, Runner.demo_init).
Proof.
  apply Runner.sched_reachable_step with (Runner.Booting 1, Runner.demo_init).
  - exact (Runner.sched_reachable_init Runner.demo_fresh Runner.demo_repr 1
             Runner.demo_heap [1%nat; 0%nat]).
  - apply Runner.sched_boot_found. discriminate.
Defined.

(** It starts the worker of "mult". *)
Lemma demo_sched_started :
  Runner.sched_reachable Runner.demo_fresh Runner.demo_repr 1 Runner.demo_heap
    [1%nat; 0%nat] (Runner.Booting 0, Runner.demo_started).
Proof.
  apply Runner.sched_reachable_step with (Runner.BootStarting 0, Runner.demo_init).
  - exact demo_sched_found.
  - apply Runner.sched_boot_start. reflexivity.
Defined.


Lemma demo_repr_identity (t t' : Runner.Test) :
  Runner.name t = Runner.name t' ->
  Runner.run_number t = Runner.run_number t' ->
  Runner.demo_repr t = Runner.demo_repr t'.
Proof. unfold Runner.demo_repr. now intros -> _. Defined.

Lemma demo_repr_distinct (a b : Runner.ref) :
  a ∈ [1%nat; 0%nat] -> b ∈ [1%nat; 0%nat] ->
  Runner.demo_repr (Runner.demo_heap a) = Runner.demo_repr (Runner.demo_heap b) -> a = b.
Proof.
  rewrite !elem_of_cons, !elem_of_nil.
  intros [-> | [-> | []]] [-> | [-> | []]]; (reflexivity || discriminate).
Defined.

(** One worker is registered, and one thread is allowed. *)
Lemma running_tests_bounded_witness :
  Z.of_nat (size (Runner.running_tests Runner.demo_started)) <= Z.max 0 1 /\
  (Runner.Booting 0 = Runner.Starting ->
   Z.of_nat (size (Runner.running_tests Runner.demo_started)) < 1).
Proof.
  exact (running_tests_bounded Runner.demo_fresh Runner.demo_repr 1 Runner.demo_heap
           [1%nat; 0%nat] (Runner.Booting 0) Runner.demo_started demo_sched_started).
Defined.

(** The worker of "mult" is registered under "mult-0". *)
Lemma workers_registered_witness :
  (forall test : Runner.ref,
     test ∈ Runner.threads Runner.demo_started ->
     Runner.running_tests Runner.demo_started
       !! Runner.demo_repr (Runner.heap Runner.demo_started test) = Some test /\
     exists s' : Runner.state,
       Runner.thread_callback Runner.demo_fresh Runner.demo_repr test Runner.demo_started
       = Return s') /\
  (forall (key : string) (test : Runner.ref),
     Runner.running_tests Runner.demo_started !! key = Some test ->
     test ∈ Runner.threads Runner.demo_started /\
     key = Runner.demo_repr (Runner.heap Runner.demo_started test)) /\
  size (Runner.running_tests Runner.demo_started)
  = length (Runner.threads Runner.demo_started) /\
  Z.of_nat (length (Runner.threads Runner.demo_started)) <= Z.max 0 1 /\
  NoDup (Runner.test_queue Runner.demo_started ++ Runner.threads Runner.demo_started).
Proof.
  apply (workers_registered Runner.demo_fresh Runner.demo_repr 1 Runner.demo_heap
           [1%nat; 0%nat] demo_repr_identity demo_repr_distinct (Runner.Booting 0)).
  - apply NoDup_cons. split; [|apply NoDup_singleton].
    rewrite list_elem_of_singleton. discriminate.
  - exact demo_sched_started.
Defined.

(** The first loop is about to start a worker: "mult" is the last of the
    queue. *)
Lemma run_test_finds_test_witness :
  exists (test : Runner.ref) (s' : Runner.state),
    last (Runner.test_queue Runner.demo_init) = Some test /\
    Runner.run_test Runner.demo_repr Runner.demo_init = Return s' /\
    Runner.threads s' = test :: Runner.threads Runner.demo_init.
Proof.
  apply (run_test_finds_test Runner.demo_fresh Runner.demo_repr 1 Runner.demo_heap
           [1%nat; 0%nat] (Runner.BootStarting 0) Runner.demo_init demo_sched_found).
  right. now exists 0%nat.
Defined.

(** "mult" asks for a retry while "fork" waits: "mult" runs again first. *)
Lemma retried_test_runs_next_witness :
  exists s' s'' : Runner.state,
    Runner.thread_callback Runner.demo_fresh Runner.demo_repr 0%nat Runner.demo_failed
    = Return s' /\
    Runner.run_test Runner.demo_repr s' = Return s'' /\
    Runner.test_queue s'' = [1%nat] /\
    Runner.running_tests s'' = Runner.running_tests Runner.demo_failed /\
    Runner.threads s'' = [0%nat; 0%nat] /\
    Runner.result (Runner.heap s'' 0%nat) = Runner.demo_fresh "mult".
Proof.
  exact (retried_test_runs_next Runner.demo_fresh Runner.demo_repr Runner.demo_failed
           0%nat demo_repr_identity eq_refl eq_refl).
Defined.


(** One thread: "mult" is over, and "fork" is left in the queue. *)
Lemma retry_can_be_lost_witness :
  exists s : Runner.state,
    Runner.sched_reachable Runner.demo_fresh Runner.demo_repr 1 Runner.demo_heap
      [1%nat; 0%nat] (Runner.Finished, s) /\
    Runner.test_queue s = [1%nat] /\ Runner.threads s = [] /\ Runner.running_tests s = ∅.
Proof.
  apply (retry_can_be_lost Runner.demo_fresh Runner.demo_repr 1 Runner.demo_heap
           [1%nat; 0%nat] demo_repr_identity) with [0%nat].
  - lia.
  - reflexivity.
Defined.

(** * Properties of the summary and of the choice of tests *)

Section MainFacts.

Import Main.

Variable make : string -> Z -> option Test.
Variable repr_of : Test -> string.
Variable tmp_dir_of : Test -> string.

(** ** The rows of the table *)

Lemma len_append (s t : string) : Py.len (s +:+ t) = Py.len s + Py.len t.
Proof. unfold Py.len. rewrite PyFacts.length_append. lia. Qed.

Lemma len_str_mul (c : ascii) (n : Z) : Py.len (str_mul (String c "") n) = Z.max 0 n.
Proof.
  unfold str_mul. rewrite <- (Z2Nat.id (Z.max 0 n)) by lia.
  replace (Z.to_nat (Z.max 0 n)) with (Z.to_nat n) by lia.
  induction (Z.to_nat n) as [|k IH]; [reflexivity|].
  cbn [repeat_string]. rewrite len_append, IH. unfold Py.len. cbn [String.length]. lia.
Qed.

Lemma row_loop_fit (res : string) (cells : list (string * Z)) :
  cells_fit cells ->
  exists row : string,
    row_loop res cells = Done row /\
    Py.len row = Py.len res + foldr Z.add 0 cells.*2.
Proof.
  intros Hfit. revert res.
  induction Hfit as [|[cell width] cells Hcell _ IH]; intros res; cbn [row_loop].
  - exists res. cbn. split; [reflexivity | lia].
  - cbn [fst snd] in Hcell.
    destruct (Z.ltb_spec (width - Py.len cell - 2) 0) as [?|Hpad]; [lia|].
    destruct (IH (res +:+ (" " +:+ cell +:+ str_mul " " (width - Py.len cell - 2) +:+ "|")))
      as (row & -> & Hlen).
    exists row. split; [reflexivity|]. rewrite Hlen.
    rewrite !len_append, len_str_mul. cbn [fmap list_fmap foldr snd].
    change (Py.len " ") with 1. change (Py.len "|") with 1. lia.
Qed.

Lemma row_loop_unfit (res : string) (cells : list (string * Z)) :
  ~ cells_fit cells ->
  exists cell : string,
    cell ∈ cells.*1 /\
    row_loop res cells
    = Thrown (ValueError (String Py.DQUOTE cell
                          +:+ String Py.DQUOTE " is to long for the table width")).
Proof.
  revert res. induction cells as [|[cell width] cells IH]; intros res Hfit.
  - destruct Hfit. constructor.
  - cbn [row_loop].
    destruct (Z.ltb_spec (width - Py.len cell - 2) 0) as [Hpad|Hpad].
    + exists cell. split; [apply list_elem_of_here | reflexivity].
    + destruct (IH (res +:+ (" " +:+ cell +:+ str_mul " " (width - Py.len cell - 2) +:+ "|")))
        as (long & Hin & ->).
      * intros Hrest. apply Hfit. constructor; [cbn; lia | exact Hrest].
      * exists long. split; [now apply list_elem_of_further | reflexivity].
Qed.

Lemma cells_fit_dec (cells : list (string * Z)) : {cells_fit cells} + {~ cells_fit cells}.
Proof. apply Forall_dec. intros cell. apply Z_le_dec. Defined.

Lemma len_markdown_table_delim (widths : list Z) :
  Forall (fun width => 3 <= width) widths ->
  Py.len (markdown_table_delim widths) = 2 + foldr Z.add 0 widths.
Proof.
  unfold markdown_table_delim. rewrite len_append.
  change (Py.len (String Py.LF "")) with 1.
  assert (forall res,
            Forall (fun width => 3 <= width) widths ->
            Py.len (fold_left
                      (fun res width => res +:+ (" " +:+ str_mul "-" (width - 3) +:+ " |"))
                      widths res)
            = Py.len res + foldr Z.add 0 widths) as Hloop.
  { induction widths as [|width widths IH]; intros res Hwide; cbn [fold_left foldr].
    - lia.
    - apply Forall_cons in Hwide as [Hwidth Hwide].
      rewrite IH by assumption. rewrite !len_append, len_str_mul.
      change (Py.len " ") with 1. change (Py.len " |") with 2. lia. }
  intros Hwide. rewrite Hloop by assumption. change (Py.len "|") with 1. lia.
Qed.

(** X9: [markdown_table_row] returns exactly when there are as many cells
    as widths and every cell is at least two characters shorter than its
    width; it raises [AssertionError] when the numbers differ and
    [ValueError] for a cell that is longer.  The row it returns is as long
    as the widths taken together and two more, which is the length of the
    delimiter line when no width is below three: the columns line up. *)
Theorem markdown_table_row_lines_up (cols : list string) (widths : list Z) :
  ((exists row : string, markdown_table_row cols widths = Done row) <->
   length cols = length widths /\ cells_fit (zip cols widths)) /\
  (length cols <> length widths -> markdown_table_row cols widths = Thrown AssertionError) /\
  (length cols = length widths -> ~ cells_fit (zip cols widths) ->
   exists cell : string,
     cell ∈ cols /\
     markdown_table_row cols widths
     = Thrown (ValueError (String Py.DQUOTE cell
                           +:+ String Py.DQUOTE " is to long for the table width"))) /\
  (forall row : string,
     markdown_table_row cols widths = Done row ->
     Py.len row = 2 + foldr Z.add 0 widths /\
     (Forall (fun width => 3 <= width) widths ->
      Py.len (markdown_table_delim widths) = Py.len row)).
Proof.
  unfold markdown_table_row.
  destruct (Nat.eqb_spec (length widths) (length cols)) as [Hlen|Hlen]; cbn [negb].
  - assert (Hwidths : (zip cols widths).*2 = widths) by (apply snd_zip; lia).
    assert (Hcols : (zip cols widths).*1 = cols) by (apply fst_zip; lia).
    destruct (cells_fit_dec (zip cols widths)) as [Hfit|Hfit].
    + destruct (row_loop_fit "|" _ Hfit) as (row & Hrow & Hrowlen).
      rewrite Hrow, Hwidths in *. cbn [mbind fallible_bind].
      assert (Py.len (row +:+ String Py.LF "") = 2 + foldr Z.add 0 widths) as Hlong.
      { rewrite len_append, Hrowlen. change (Py.len "|") with 1.
        change (Py.len (String Py.LF "")) with 1. lia. }
      split; [split; [auto | eauto]|].
      split; [congruence|]. split; [contradiction|].
      intros row' [= <-]. split; [exact Hlong|].
      intros Hwide. rewrite Hlong. now apply len_markdown_table_delim.
    + destruct (row_loop_unfit "|" _ Hfit) as (cell & Hcell & Hrow).
      rewrite Hrow, Hcols in *. cbn [mbind fallible_bind].
      split; [split; [now intros [row [=]] | now intros [_ ?]]|].
      split; [congruence|]. split; [eauto|]. intros row [=].
  - split; [split; [now intros [row [=]] | intros [? _]; congruence]|].
    split; [reflexivity|]. split; [congruence|]. intros row [=].
Qed.

(** ** The table of the summary *)

Lemma append_assoc (s t u : string) : (s +:+ t) +:+ u = s +:+ (t +:+ u).
Proof.
  induction s as [|c s IH]; rewrite ?PyFacts.append_nil_l, ?PyFacts.append_cons;
    [reflexivity | now rewrite IH].
Qed.

Lemma append_nil_r (s : string) : s +:+ "" = s.
Proof.
  induction s as [|c s IH]; rewrite ?PyFacts.append_nil_l, ?PyFacts.append_cons;
    [reflexivity | now rewrite IH].
Qed.

Lemma disabled_rows_loop (summary : string) (disabled_tests : list string) :
  disabled_rows summary disabled_tests
  = rows_loop summary ((fun test => (test, TestStatus_name DISABLED)) <$> disabled_tests).
Proof.
  revert summary. induction disabled_tests as [|test rest IH]; intros summary;
    cbn [disabled_rows rows_loop fmap list_fmap]; [reflexivity|].
  destruct (markdown_table_row _ _); cbn [mbind fallible_bind]; [apply IH | reflexivity].
Qed.

Lemma test_rows_loop (summary : string) (tests : list Test) :
  test_rows repr_of summary tests
  = rows_loop summary
      ((fun test => (repr_of test, TestStatus_name (Runner.status (result test)))) <$> tests).
Proof.
  revert summary. induction tests as [|test rest IH]; intros summary;
    cbn [test_rows rows_loop fmap list_fmap]; [reflexivity|].
  destruct (markdown_table_row _ _); cbn [mbind fallible_bind]; [apply IH | reflexivity].
Qed.

Lemma default_row (test verdict : string) :
  Py.len verdict <= 18 ->
  (Py.len test <= 38 ->
   exists row : string,
     markdown_table_row [test; verdict] default_widths = Done row /\ Py.len row = 62) /\
  (38 < Py.len test ->
   markdown_table_row [test; verdict] default_widths
   = Thrown (ValueError (String Py.DQUOTE test
                         +:+ String Py.DQUOTE " is to long for the table width"))).
Proof.
  intros Hverdict. unfold markdown_table_row, default_widths.
  cbn [length Nat.eqb negb zip zip_with row_loop].
  split; intros Htest.
  - destruct (Z.ltb_spec (40 - Py.len test - 2) 0) as [?|_]; [lia|].
    destruct (Z.ltb_spec (20 - Py.len verdict - 2) 0) as [?|_]; [lia|].
    cbn [mbind fallible_bind]. eexists. split; [reflexivity|].
    rewrite !len_append, !len_str_mul.
    change (Py.len "|") with 1. change (Py.len " ") with 1.
    change (Py.len (String Py.LF "")) with 1. lia.
  - destruct (Z.ltb_spec (40 - Py.len test - 2) 0) as [_|?]; [reflexivity | lia].
Qed.

Lemma rows_loop_fit (summary : string) (rows : list (string * string)) :
  Forall (fun row => Py.len row.2 <= 18) rows ->
  Forall (fun row => Py.len row.1 <= 38) rows ->
  exists lines : list string,
    rows_loop summary rows = Done (summary +:+ lines_text lines) /\
    length lines = length rows /\
    Forall (fun line => Py.len line = 62) lines.
Proof.
  intros Hverdicts. revert summary.
  induction Hverdicts as [|[test verdict] rows Hverdict _ IH]; intros summary Htests.
  - exists []. cbn. now rewrite append_nil_r.
  - apply Forall_cons in Htests as [Htest Htests]. cbn [fst snd] in *.
    destruct (proj1 (default_row test verdict Hverdict) Htest) as (row & Hrow & Hlen).
    cbn [rows_loop]. rewrite Hrow. cbn [mbind fallible_bind].
    destruct (IH (summary +:+ row) Htests) as (lines & -> & Hlines & Hwide).
    exists (row :: lines). cbn [lines_text foldr length].
    rewrite append_assoc. repeat split; [congruence | now constructor].
Qed.


Lemma len_TestStatus_name (st : TestStatus) : Py.len (TestStatus_name st) <= 18.
Proof. destruct st; vm_compute; discriminate. Qed.

Lemma insert_by_Permutation {A : Type} (before : A -> A -> bool) (x : A) (l : list A) :
  insert_by before x l ≡ₚ x :: l.
Proof.
  induction l as [|y l IH]; cbn [insert_by]; [reflexivity|].
  destruct (before x y); [reflexivity|]. rewrite IH. apply Permutation_swap.
Qed.

Lemma sort_by_Permutation {A : Type} (before : A -> A -> bool) (l : list A) :
  sort_by before l ≡ₚ l.
Proof.
  induction l as [|x l IH]; cbn [sort_by foldr]; [reflexivity|].
  rewrite insert_by_Permutation. now constructor.
Qed.

Lemma lines_text_app (lines more : list string) :
  lines_text (lines ++ more) = lines_text lines +:+ lines_text more.
Proof.
  induction lines as [|line lines IH]; cbn [lines_text foldr app]; [reflexivity|].
  fold (lines_text (lines ++ more)). fold (lines_text lines).
  now rewrite IH, append_assoc.
Qed.

Lemma disabled_rows_verdicts (disabled_tests : list string) :
  Forall (fun row : string * string => Py.len row.2 <= 18)
    ((fun test => (test, TestStatus_name DISABLED)) <$> disabled_tests).
Proof. apply Forall_fmap, Forall_true. intros test. apply len_TestStatus_name. Qed.

Lemma test_rows_verdicts (tests : list Test) :
  Forall (fun row : string * string => Py.len row.2 <= 18)
    ((fun test => (repr_of test, TestStatus_name (Runner.status (result test)))) <$> tests).
Proof. apply Forall_fmap, Forall_true. intros test. apply len_TestStatus_name. Qed.

Lemma Forall_rows {A : Type} (f g : A -> string) (l : list A) :
  Forall (fun row : string * string => Py.len row.1 <= 38) ((fun a => (f a, g a)) <$> l) <->
  Forall (fun a => Py.len (f a) <= 38) l.
Proof.
  rewrite !Forall_forall. split.
  - intros H a Ha. apply (H (f a, g a)), list_elem_of_fmap. eauto.
  - intros H row (a & -> & Ha)%list_elem_of_fmap. now apply H.
Qed.

Lemma table_head :
  exists row : string,
    markdown_table_row ["Test run"; "Result"] default_widths = Done row /\ Py.len row = 62.
Proof. apply default_row; vm_compute; discriminate. Qed.

(** The table when every cell fits. *)
Lemma table_fit (tests : list Test) (disabled_tests : list string) :
  Forall (fun test => Py.len test <= 38) disabled_tests ->
  Forall (fun test => Py.len (repr_of test) <= 38) tests ->
  exists (row summary : string) (lines : list string),
    markdown_table_row ["Test run"; "Result"] default_widths = Done row /\
    disabled_rows (row +:+ markdown_table_delim default_widths) disabled_tests
    = Done summary /\
    test_rows repr_of summary (sorted_by_status tests) = Done (lines_text lines) /\
    length lines = (2 + length disabled_tests + length tests)%nat /\
    Forall (fun line => Py.len line = 62) lines.
Proof.
  intros Hdisabled Htests.
  destruct table_head as (head & Hhead & Hheadlen).
  assert (Hdelim : Py.len (markdown_table_delim default_widths) = 62) by reflexivity.
  destruct (rows_loop_fit (head +:+ markdown_table_delim default_widths)
              ((fun test => (test, TestStatus_name DISABLED)) <$> disabled_tests)
              (disabled_rows_verdicts disabled_tests))
    as (lines & Hrows & Hlines & Hwide).
  { now apply (Forall_rows (fun test => test)). }
  destruct (rows_loop_fit
              ((head +:+ markdown_table_delim default_widths) +:+ lines_text lines)
              ((fun test => (repr_of test, TestStatus_name (Runner.status (result test))))
                 <$> sorted_by_status tests)
              (test_rows_verdicts _))
    as (more & Hmore & Hmorelen & Hmorewide).
  { apply Forall_rows. unfold sorted_by_status. now rewrite sort_by_Permutation. }
  exists head, ((head +:+ markdown_table_delim default_widths) +:+ lines_text lines),
    (head :: markdown_table_delim default_widths :: lines ++ more).
  split; [exact Hhead|]. split; [now rewrite disabled_rows_loop|].
  split; [|split].
  - rewrite test_rows_loop, Hmore. f_equal.
    cbn [lines_text foldr]. fold (lines_text (lines ++ more)).
    now rewrite lines_text_app, !append_assoc.
  - cbn [length]. rewrite length_app, Hlines, Hmorelen, !length_fmap.
    unfold sorted_by_status. rewrite sort_by_Permutation. lia.
  - repeat constructor; try assumption. now apply Forall_app.
Qed.











(** ** The errors of the summary *)

Lemma trimmed_error_returns (error : string) :
  error <> "" -> exists text : string, trimmed_error error = Done text.
Proof.
  intros Herror. unfold trimmed_error, last_char.
  destruct error as [|c error]; [congruence|]. cbn [mbind fallible_bind]. eauto.
Qed.

Lemma errors_loop_returns (summary : string) (errors : list string) :
  "" ∉ errors -> exists text : string, errors_loop summary errors = Done text.
Proof.
  revert summary. induction errors as [|error errors IH]; intros summary Herrors;
    cbn [errors_loop]; [eauto|].
  apply not_elem_of_cons in Herrors as [Herror Herrors].
  destruct (trimmed_error_returns error) as (text & ->); [congruence|].
  cbn [mbind fallible_bind]. destruct (str_in _ _); now apply IH.
Qed.

Lemma errors_loop_empty_error (summary : string) (errors : list string) :
  "" ∈ errors -> errors_loop summary errors = Thrown IndexError.
Proof.
  revert summary. induction errors as [|error errors IH]; intros summary Herrors;
    [now apply elem_of_nil in Herrors|].
  cbn [errors_loop].
  destruct (decide (error = "")) as [->|Herror]; [reflexivity|].
  apply elem_of_cons in Herrors as [?|Herrors]; [congruence|].
  destruct (trimmed_error_returns error Herror) as (text & ->).
  cbn [mbind fallible_bind]. destruct (str_in _ _); now apply IH.
Qed.

Lemma failed_tests_loop_returns (summary : string) (failed_tests : list Test) :
  Forall (fun test => "" ∉ Runner.errors (result test)) failed_tests ->
  exists text : string,
    failed_tests_loop repr_of tmp_dir_of summary failed_tests = Done text.
Proof.
  intros Hfailed. revert summary.
  induction Hfailed as [|test rest Htest _ IH]; intros summary;
    cbn [failed_tests_loop]; [eauto|].
  destruct (errors_loop_returns
              (summary +:+ ("### " +:+ repr_of test +:+ " - " +:+ tmp_dir_of test
                            +:+ "/out.log" +:+ String Py.LF (String Py.LF "")))
              _ Htest) as (text & ->).
  cbn [mbind fallible_bind]. apply IH.
Qed.

Lemma failed_tests_loop_empty_error (summary : string) (failed_tests : list Test) :
  ~ Forall (fun test => "" ∉ Runner.errors (result test)) failed_tests ->
  failed_tests_loop repr_of tmp_dir_of summary failed_tests = Thrown IndexError.
Proof.
  revert summary. induction failed_tests as [|test rest IH]; intros summary Hfailed.
  - destruct Hfailed. constructor.
  - cbn [failed_tests_loop].
    destruct (decide ("" ∈ Runner.errors (result test))) as [Htest|Htest].
    + now rewrite errors_loop_empty_error.
    + destruct (errors_loop_returns
                  (summary +:+ ("### " +:+ repr_of test +:+ " - " +:+ tmp_dir_of test
                                +:+ "/out.log" +:+ String Py.LF (String Py.LF "")))
                  _ Htest) as (text & ->).
      cbn [mbind fallible_bind]. apply IH. intros Hrest. apply Hfailed. now constructor.
Qed.

Lemma elem_of_filter {A : Type} (f : A -> bool) (x : A) (l : list A) :
  x ∈ List.filter f l <-> x ∈ l /\ f x = true.
Proof. rewrite !list_elem_of_In. apply filter_In. Qed.

(** X11: the errors of the summary.  When every cell of the table fits,
    the summary of a run that failed is produced exactly when no test with
    the status FAILED or PANIC has an empty string among its errors;
    otherwise [error[-1]] raises [IndexError]. *)
Theorem summary_errors_not_empty (tests : list Test) (disabled_tests : list string) :
  Forall (fun test => Py.len test <= 38) disabled_tests ->
  Forall (fun test => Py.len (repr_of test) <= 38) tests ->
  ((forall test : Test,
      test ∈ tests -> Runner.status (result test) ∈ [FAILED; PANIC] ->
      "" ∉ Runner.errors (result test)) ->
   exists summary : string,
     get_markdown_test_summary repr_of tmp_dir_of tests disabled_tests false
     = Done summary) /\
  ((exists test : Test,
      test ∈ tests /\ Runner.status (result test) ∈ [FAILED; PANIC] /\
      "" ∈ Runner.errors (result test)) ->
   get_markdown_test_summary repr_of tmp_dir_of tests disabled_tests false
   = Thrown IndexError).
Proof.
  intros Hdisabled Htests. unfold get_markdown_test_summary.
  destruct (table_fit tests disabled_tests Hdisabled Htests)
    as (head & summary & lines & -> & Hrows & Hmore & _).
  cbn [mbind fallible_bind]. rewrite PyFacts.append_nil_l, Hrows.
  cbn [mbind fallible_bind]. rewrite Hmore. cbn [mbind fallible_bind negb].
  split.
  - intros Herrors. apply failed_tests_loop_returns.
    apply Forall_forall. intros test [Hin Hstatus%bool_decide_eq_true]%elem_of_filter.
    apply Herrors; [|assumption].
    unfold sorted_by_status in Hin. now rewrite sort_by_Permutation in Hin.
  - intros (test & Hin & Hstatus & Hempty). apply failed_tests_loop_empty_error.
    rewrite Forall_forall. intros Hall. apply (Hall test); [|assumption].
    apply elem_of_filter. split; [|now apply bool_decide_eq_true].
    unfold sorted_by_status. now rewrite sort_by_Permutation.
Qed.

(** ** The tests to run *)

Lemma filter_filter {A : Type} (f g : A -> bool) (l : list A) :
  List.filter f (List.filter g l) = List.filter (fun x => g x && f x) l.
Proof.
  induction l as [|x l IH]; cbn [List.filter]; [reflexivity|].
  destruct (g x); cbn [List.filter andb]; [|exact IH].
  destruct (f x); now rewrite IH.
Qed.

Lemma filter_true {A : Type} (l : list A) : List.filter (fun _ => true) l = l.
Proof. induction l as [|x l IH]; cbn [List.filter]; [reflexivity | now rewrite IH]. Qed.

(** A stable sort of a list that is in the order [R]: ordered by [before],
    and by [R] where [before] holds both ways. *)
Lemma insert_by_sorted {A : Type} (before : A -> A -> bool) (R : A -> A -> Prop)
    (x : A) (l : list A) :
  (forall a b, before a b = false -> before b a = true) ->
  (forall a b c, before a b = true -> before b c = true -> before a c = true) ->
  Forall (R x) l ->
  StronglySorted (fun a b => before a b = true /\ (before b a = true -> R a b)) l ->
  StronglySorted (fun a b => before a b = true /\ (before b a = true -> R a b))
    (insert_by before x l).
Proof.
  intros Htotal Htrans Hprior Hsorted.
  induction Hsorted as [|y l Hsorted IH Hy]; cbn [insert_by].
  - repeat constructor.
  - apply Forall_cons in Hprior as [Hxy Hprior].
    destruct (before x y) eqn:Hbefore.
    + constructor; [now constructor|]. constructor; [auto|].
      rewrite Forall_forall in Hy, Hprior |- *. intros z Hz.
      destruct (Hy z Hz) as [Hyz _]. split; [eauto | intros _; now apply Hprior].
    + constructor; [now apply IH|].
      rewrite insert_by_Permutation. constructor; [|exact Hy].
      split; [now apply Htotal | congruence].
Qed.

Lemma sort_by_sorted {A : Type} (before : A -> A -> bool) (R : A -> A -> Prop)
    (l : list A) :
  (forall a b, before a b = false -> before b a = true) ->
  (forall a b c, before a b = true -> before b c = true -> before a c = true) ->
  StronglySorted R l ->
  StronglySorted (fun a b => before a b = true /\ (before b a = true -> R a b))
    (sort_by before l).
Proof.
  intros Htotal Htrans Hsorted.
  induction Hsorted as [|x l Hsorted IH Hx]; cbn [sort_by foldr]; [constructor|].
  apply insert_by_sorted; try assumption.
  fold (sort_by before l). now rewrite sort_by_Permutation.
Qed.

Lemma StronglySorted_impl {A : Type} (R R' : A -> A -> Prop) (l : list A) :
  (forall a b, R a b -> R' a b) -> StronglySorted R l -> StronglySorted R' l.
Proof.
  intros Himpl. induction 1 as [|x l _ IH Hx]; constructor; [assumption|].
  eapply Forall_impl; eauto.
Qed.

Lemma leb_name_total (a b : Test) :
  String.leb (name b) (name a) = false -> String.leb (name a) (name b) = true.
Proof. destruct (String.leb_total (name b) (name a)) as [->| ->]; [discriminate | reflexivity]. Qed.

Lemma leb_name_trans (a b c : Test) :
  String.leb (name b) (name a) = true -> String.leb (name c) (name b) = true ->
  String.leb (name c) (name a) = true.
Proof.
  intros Hba Hcb. apply Is_true_true.
  change (String.le (name c) (name a)).
  transitivity (name b); unfold String.le; now apply Is_true_true.
Qed.

(** X12: [get_tests_to_run] returns each test that was created, passes the
    filters and is not disabled, once, and the names of those that pass
    the filters and are disabled.  The tests are sorted by name from the
    last to the first; when they are repeated, by run number and within it
    by name from the last to the first.  So the last test of the list,
    which [run_tests] starts first, has the first name: of all tests, or,
    when they are repeated, of the tests of the greatest run number. *)
Theorem get_tests_to_run_sorted (file_stems : list string) (repeat : Z)
    (category tag : list string) :
  (get_tests_to_run make file_stems repeat category tag).1
  ≡ₚ List.filter (fun test => selected category tag test && negb (disabled (spec test)))
       (created_tests make file_stems repeat) /\
  (get_tests_to_run make file_stems repeat category tag).2
  = name <$> List.filter (fun test => selected category tag test && disabled (spec test))
               (created_tests make file_stems repeat) /\
  StronglySorted (listed_before repeat)
    (get_tests_to_run make file_stems repeat category tag).1 /\
  (forall (front : list Test) (test : Test),
     (get_tests_to_run make file_stems repeat category tag).1 = front ++ [test] ->
     Forall (fun other => listed_before repeat other test) front).
Proof.
  unfold get_tests_to_run. cbn [fst snd].
  set (tests := created_tests make file_stems repeat).
  assert (Hfilters :
            match tag with
            | [] => match category with
                    | [] => tests
                    | _ => List.filter
                             (fun test => bool_decide (Main.category (spec test) ∈ category))
                             tests
                    end
            | _ => List.filter (fun test => has_any_tag test tag)
                     match category with
                     | [] => tests
                     | _ => List.filter
                              (fun test => bool_decide (Main.category (spec test) ∈ category))
                              tests
                     end
            end = List.filter (selected category tag) tests).
  { unfold selected. destruct category, tag; rewrite ?filter_filter.
    - now rewrite filter_true.
    - now rewrite <- (filter_true tests) at 1; rewrite filter_filter.
    - apply List.filter_ext. intros test. now rewrite andb_true_r.
    - reflexivity. }
  rewrite Hfilters, !filter_filter.
  set (kept := List.filter _ tests).
  assert (Hnames : StronglySorted (fun a b => String.le (name b) (name a))
                     (sort_by (fun a b => String.leb (name b) (name a)) kept)).
  { apply StronglySorted_impl
      with (fun a b => String.leb (name b) (name a) = true /\
                       (String.leb (name a) (name b) = true -> True)).
    - intros a b [Hle _]. unfold String.le. now apply Is_true_true.
    - apply sort_by_sorted.
      + intros a b. apply leb_name_total.
      + intros a b c. apply leb_name_trans.
      + clear. induction kept; constructor; [assumption | now apply Forall_true]. }
  assert (Hsorted :
            StronglySorted (listed_before repeat)
              (if 1 <? repeat
               then sort_by (fun a b => run_number a <=? run_number b)
                      (sort_by (fun a b => String.leb (name b) (name a)) kept)
               else sort_by (fun a b => String.leb (name b) (name a)) kept)).
  { unfold listed_before. destruct (1 <? repeat); [|exact Hnames].
    eapply StronglySorted_impl; [|apply sort_by_sorted; [| |exact Hnames]].
    - intros a b [Hle Hprior]. cbn beta in *. apply Z.leb_le in Hle.
      destruct (Z.eq_dec (run_number a) (run_number b)) as [Heq|Hne]; [|left; lia].
      right. split; [assumption|]. apply Hprior, Z.leb_le. lia.
    - intros a b ?%Z.leb_gt. apply Z.leb_le. lia.
    - intros a b c ?%Z.leb_le ?%Z.leb_le. apply Z.leb_le. lia. }
  split; [|split; [reflexivity|split; [exact Hsorted|]]].
  - destruct (1 <? repeat); now rewrite ?sort_by_Permutation.
  - intros front test Hlast. rewrite Hlast in Hsorted.
    apply StronglySorted_app in Hsorted as (Hfront & _ & _).
    apply Forall_forall. intros other Hother. apply Hfront; [assumption|].
    apply list_elem_of_singleton. reflexivity.
Qed.

(** ** The line breaks of the errors *)

Lemma substring_all (t : string) : substring 0 (String.length t) t = t.
Proof. induction t as [|c t IH]; cbn [substring String.length]; [reflexivity | now rewrite IH]. Qed.

Lemma substring_tail (s t : string) :
  substring (String.length s) (String.length t) (s +:+ t) = t.
Proof.
  induction s as [|c s IH]; rewrite ?PyFacts.append_nil_l, ?PyFacts.append_cons;
    cbn [substring String.length]; [apply substring_all | exact IH].
Qed.

Lemma substring_head (s t : string) : substring 0 (String.length s) (s +:+ t) = s.
Proof.
  induction s as [|c s IH]; rewrite ?PyFacts.append_nil_l, ?PyFacts.append_cons;
    cbn [substring String.length]; [now destruct t | now rewrite IH].
Qed.

Lemma slice_suffix (s t : string) :
  t <> "" -> Py.slice (s +:+ t) (- Py.len t) (Py.len (s +:+ t)) = t.
Proof.
  intros Ht. unfold Py.slice, Py.adjust_index. rewrite len_append.
  assert (0 < Py.len t) by (destruct t; [congruence | unfold Py.len; cbn; lia]).
  assert (0 <= Py.len s) by (unfold Py.len; lia).
  destruct (Z.ltb_spec (- Py.len t) 0); [|lia].
  destruct (Z.ltb_spec (Py.len s + Py.len t) 0); [lia|].
  destruct (Z.ltb_spec (Z.max 0 (- Py.len t + (Py.len s + Py.len t)))
              (Z.min (Py.len s + Py.len t) (Py.len s + Py.len t))); [|lia].
  replace (Z.to_nat (Z.max 0 (- Py.len t + (Py.len s + Py.len t)))) with (String.length s)
    by (unfold Py.len; lia).
  replace (Z.to_nat (Z.min (Py.len s + Py.len t) (Py.len s + Py.len t)
                     - Z.max 0 (- Py.len t + (Py.len s + Py.len t))))
    with (String.length t) by (unfold Py.len; lia).
  apply substring_tail.
Qed.

Lemma slice_short (s : string) (k : Z) :
  Py.len s <= k -> Py.slice s (- k) (Py.len s) = s.
Proof.
  intros Hk. unfold Py.slice, Py.adjust_index.
  assert (0 <= Py.len s) by (unfold Py.len; lia).
  destruct s as [|c s].
  { destruct (_ <? _)%Z; [|reflexivity]. now destruct (Z.to_nat _), (Z.to_nat _). }
  assert (0 < Py.len (String c s)) by (unfold Py.len; cbn; lia).
  destruct (Z.ltb_spec (- k) 0); [|lia].
  destruct (Z.ltb_spec (Py.len (String c s)) 0); [lia|].
  destruct (Z.ltb_spec (Z.max 0 (- k + Py.len (String c s)))
              (Z.min (Py.len (String c s)) (Py.len (String c s)))); [|lia].
  replace (Z.to_nat (Z.max 0 (- k + Py.len (String c s)))) with 0%nat by lia.
  replace (Z.to_nat (Z.min (Py.len (String c s)) (Py.len (String c s))
                     - Z.max 0 (- k + Py.len (String c s))))
    with (String.length (String c s)) by (unfold Py.len in *; lia).
  apply substring_all.
Qed.

Lemma slice_drop_last (s : string) (c : ascii) : Py.slice (s +:+ String c "") 0 (-1) = s.
Proof.
  unfold Py.slice, Py.adjust_index. rewrite len_append.
  change (Py.len (String c "")) with 1.
  assert (0 <= Py.len s) by (unfold Py.len; lia).
  cbn [Z.ltb Z.compare]. change (-1 <? 0) with true. cbn match.
  destruct (Z.ltb_spec (Z.min 0 (Py.len s + 1)) (Z.max 0 (-1 + (Py.len s + 1)))).
  - replace (Z.to_nat (Z.min 0 (Py.len s + 1))) with 0%nat by lia.
    replace (Z.to_nat (Z.max 0 (-1 + (Py.len s + 1)) - Z.min 0 (Py.len s + 1)))
      with (String.length s) by (unfold Py.len; lia).
    apply substring_head.
  - destruct s; [reflexivity | unfold Py.len in *; cbn in *; lia].
Qed.

Lemma last_char_snoc (s : string) (c : ascii) :
  last_char (s +:+ String c "") = Done (String c "").
Proof.
  unfold last_char.
  pose proof (slice_suffix s (String c "")) as Hslice.
  change (- Py.len (String c "")) with (-1) in Hslice.
  destruct (s +:+ String c "") eqn:Hs.
  - now destruct s.
  - now rewrite Hslice.
Qed.

Lemma string_snoc_cases (s : string) :
  s = "" \/ exists (front : string) (c : ascii), s = front +:+ String c "".
Proof.
  induction s as [|c s IH]; [now left|]. right.
  destruct IH as [->|(front & d & ->)].
  - now exists "", c.
  - now exists (String c front), d.
Qed.

Lemma last_two (s : string) (c : ascii) :
  (forall front : string, s <> front +:+ String Py.LF "") \/ c <> Py.LF ->
  String.eqb (Py.slice (s +:+ String c "") (-2) (Py.len (s +:+ String c "")))
    (String Py.LF (String Py.LF "")) = false.
Proof.
  intros Hlast. apply String.eqb_neq.
  destruct (string_snoc_cases s) as [->|(front & d & ->)].
  - rewrite PyFacts.append_nil_l.
    pose proof (slice_short (String c "") 2) as Hslice.
    change (- (2)) with (-2) in Hslice. rewrite Hslice; [discriminate|].
    vm_compute. discriminate.
  - rewrite append_assoc. rewrite PyFacts.append_cons, PyFacts.append_nil_l.
    pose proof (slice_suffix front (String d (String c ""))) as Hslice.
    change (- Py.len (String d (String c ""))) with (-2) in Hslice.
    rewrite Hslice by discriminate.
    intros [= -> ->]. destruct Hlast as [Hlast|Hlast]; [|congruence].
    now apply (Hlast front).
Qed.

(** X13: every error of the summary ends with a line break.  An error
    that ends with neither a line feed nor a carriage return gets a line
    feed; one that ends with two line feeds loses one of them; every other
    error is listed as it is; and an empty error raises [IndexError]. *)
Theorem trimmed_error_ends_line (body : string) (c : ascii) :
  trimmed_error "" = Thrown IndexError /\
  (c <> Py.LF -> c <> Py.CR ->
   trimmed_error (body +:+ String c "") = Done (body +:+ String c (String Py.LF ""))) /\
  trimmed_error (body +:+ String Py.CR "") = Done (body +:+ String Py.CR "") /\
  trimmed_error (body +:+ String Py.LF (String Py.LF "")) = Done (body +:+ String Py.LF "") /\
  ((forall front : string, body <> front +:+ String Py.LF "") ->
   trimmed_error (body +:+ String Py.LF "") = Done (body +:+ String Py.LF "")).
Proof.
  split; [reflexivity|]. unfold trimmed_error. split; [|split; [|split]].
  - intros Hlf Hcr. rewrite last_char_snoc. cbn [mbind fallible_bind].
    rewrite bool_decide_eq_false_2.
    2:{ rewrite !elem_of_cons, elem_of_nil. intros [[=]|[[=]|[]]]; congruence. }
    cbn [negb]. rewrite append_assoc, PyFacts.append_cons, PyFacts.append_nil_l.
    pose proof (slice_suffix body (String c (String Py.LF ""))) as Hslice.
    change (- Py.len (String c (String Py.LF ""))) with (-2) in Hslice.
    rewrite Hslice by discriminate.
    destruct (String.eqb_spec (String c (String Py.LF "")) (String Py.LF (String Py.LF "")))
      as [[=]|_]; [congruence | reflexivity].
  - rewrite last_char_snoc. cbn [mbind fallible_bind].
    rewrite bool_decide_eq_true_2 by (rewrite !elem_of_cons; auto).
    cbn [negb]. rewrite last_two; [reflexivity | right; discriminate].
  - replace (body +:+ String Py.LF (String Py.LF ""))
      with ((body +:+ String Py.LF "") +:+ String Py.LF "")
      by (now rewrite append_assoc).
    rewrite last_char_snoc. cbn [mbind fallible_bind].
    rewrite bool_decide_eq_true_2 by (rewrite !elem_of_cons; auto).
    cbn [negb]. rewrite slice_drop_last.
    rewrite append_assoc, PyFacts.append_cons, PyFacts.append_nil_l.
    pose proof (slice_suffix body (String Py.LF (String Py.LF ""))) as Hslice.
    change (- Py.len (String Py.LF (String Py.LF ""))) with (-2) in Hslice.
    rewrite Hslice by discriminate. now rewrite String.eqb_refl.
  - intros Hbody. rewrite last_char_snoc. cbn [mbind fallible_bind].
    rewrite bool_decide_eq_true_2 by (rewrite !elem_of_cons; auto).
    cbn [negb]. rewrite last_two; [reflexivity | now left].
Qed.

End MainFacts.

(** * The summary on a concrete run *)


(** "mult" failed with an error that is not empty: the summary lists it. *)
Lemma summary_errors_not_empty_witness :
  exists summary : string,
    Main.get_markdown_test_summary Main.demo_repr Main.demo_tmp_dir [Main.demo_mult]
      ["exec"] false
    = Main.Done summary.
Proof.
  apply (summary_errors_not_empty Main.demo_repr Main.demo_tmp_dir [Main.demo_mult]
           ["exec"]).
  - repeat constructor. vm_compute. discriminate.
  - repeat constructor. vm_compute. discriminate.
  - intros test ->%list_elem_of_singleton _.
    cbn. rewrite list_elem_of_singleton. discriminate.
Defined.

(** * Properties of the analysis as a whole *)

Section AnalyzerRuns.

Variable limit : nat.
Variable marker : string.

(** ** When the analysis raises and when it returns *)

Lemma find_entry_absent (entries : list AnalyzeConfigEntry) (wanted : string) :
  Forall (fun entry => name entry <> wanted) entries ->
  find_entry entries wanted = Raise StopIteration.
Proof.
  induction 1 as [|entry entries Hentry _ IH]; cbn [find_entry]; [reflexivity|].
  now apply String.eqb_neq in Hentry as ->.
Qed.

Lemma analyze_loop_raises (self : LogAnalyzer) (log_data : list (string * list string))
    (entry_name : string) (logs : list string) :
  (entry_name, logs) ∈ log_data ->
  (forall r : TestResult, exists e : exn,
     analyze_entry limit marker self r entry_name logs = Raise e) ->
  forall r : TestResult, exists e : exn,
    analyze_loop limit marker self r log_data = Raise e.
Proof.
  intros Hin Hraises.
  induction log_data as [|[other lines] rest IH]; intros r;
    [now apply elem_of_nil in Hin|].
  cbn [analyze_loop].
  destruct (analyze_entry limit marker self r other lines) as [r1|e] eqn:Hentry;
    cbn [mbind outcome_bind]; [|eauto].
  apply elem_of_cons in Hin as [[= <- <-]|Hin]; [|now apply IH].
  destruct (Hraises r) as [e He]. congruence.
Qed.

Lemma analyze_starts (self : LogAnalyzer) (log_data : list (string * list string))
    (ir_watchdog_status : InterruptWatchdog.Status) :
  disabled (test_spec self) = false ->
  exists r : TestResult,
    analyze limit marker self log_data ir_watchdog_status
    = analyze_loop limit marker self r log_data.
Proof. intros Hdisabled. unfold analyze. rewrite Hdisabled. eauto. Qed.

(** X14: the analysis of a test that is not disabled raises whenever the
    log data holds a bucket, even an empty one, that has no rule of its
    name, or whose rule names a status that is no member of [TestStatus]:
    no result is returned, whatever the other buckets hold. *)
Theorem analyze_needs_rules (self : LogAnalyzer) (log_data : list (string * list string))
    (ir_watchdog_status : InterruptWatchdog.Status) (entry_name : string)
    (logs : list string) :
  disabled (test_spec self) = false ->
  (entry_name, logs) ∈ log_data ->
  Forall (fun entry => name entry <> entry_name) (config self) \/
  (exists (config_entry : AnalyzeConfigEntry) (member : string),
     _get_config_entry_by_name self entry_name = Return config_entry /\
     set_status config_entry = Some member /\ member <> "" /\
     TestStatus_getitem member = Raise (KeyError member)) ->
  exists e : exn, analyze limit marker self log_data ir_watchdog_status = Raise e.
Proof.
  intros Hdisabled Hin Hrule.
  destruct (analyze_starts self log_data ir_watchdog_status Hdisabled) as [r ->].
  apply analyze_loop_raises with entry_name logs; [assumption|].
  intros r'. unfold analyze_entry.
  destruct Hrule as [Habsent|(config_entry & member & -> & Hset & Hmember & Hgetitem)].
  - unfold _get_config_entry_by_name. rewrite (find_entry_absent _ _ Habsent).
    cbn [mbind outcome_bind]. eauto.
  - cbn [mbind outcome_bind]. unfold entry_status. rewrite Hset.
    destruct member as [|c member]; [congruence|].
    rewrite Hgetitem. cbn [mbind outcome_bind]. eauto.
Qed.

Lemma check_exit_codes_returns (r : TestResult) (exit_codes : list string)
    (expect_exit_codes : list Z) (st : option TestStatus) (strs : list string) :
  Py.str_all limit expect_exit_codes = Return strs ->
  exists r' : TestResult,
    check_exit_codes limit r exit_codes expect_exit_codes st = Return r'.
Proof.
  intros Hstrs.
  assert (forall r0, exists r' : TestResult,
            check_parsed_codes limit r0 exit_codes expect_exit_codes st = Return r')
    as Hparsed.
  { intros r0. unfold check_parsed_codes.
    destruct (exit_codes_loop limit r0 expect_exit_codes false exit_codes)
      as [r1|r1 [|]]; eauto.
    rewrite Hstrs. cbn [mbind outcome_bind]. eauto. }
  unfold check_exit_codes.
  destruct (bool_decide (status r = PANIC)); [eauto|].
  destruct exit_codes as [|code codes]; [|apply Hparsed].
  destruct (bool_decide _); [eauto | apply Hparsed].
Qed.

(** X15: the analysis returns a result when every bucket of the log data
    has a rule of its name whose status, if it names one, is a member of
    [TestStatus], and the expected exit codes can be printed.  *)
Theorem analyze_returns (self : LogAnalyzer) (log_data : list (string * list string))
    (ir_watchdog_status : InterruptWatchdog.Status) (strs : list string) :
  Forall (fun bucket =>
            exists (config_entry : AnalyzeConfigEntry) (st : option TestStatus),
              _get_config_entry_by_name self bucket.1 = Return config_entry /\
              entry_status config_entry = Return st) log_data ->
  Py.str_all limit (expect_exit_codes_or_default (test_spec self)) = Return strs ->
  exists r : TestResult,
    analyze limit marker self log_data ir_watchdog_status = Return r.
Proof.
  intros Hrules Hstrs. unfold analyze.
  destruct (disabled (test_spec self)); [eauto|].
  generalize
    (if bool_decide (ir_watchdog_status = InterruptWatchdog.TIMEOUT)
        && negb (expect_timeout (test_spec self))
     then add_errors
            (if bool_decide (ir_watchdog_status = InterruptWatchdog.STOPPED)
             then add_errors (TestResult_new SUCCESS)
                    ["Test killed, because no more interrupts were coming"] None
             else TestResult_new SUCCESS)
            ["Test execution timeout"] (Some TIMEOUT)
     else if bool_decide (ir_watchdog_status = InterruptWatchdog.STOPPED)
          then add_errors (TestResult_new SUCCESS)
                 ["Test killed, because no more interrupts were coming"] None
          else TestResult_new SUCCESS) as r.
  induction Hrules as [|[entry_name logs] rest (config_entry & st & Hfind & Hstatus) _ IH];
    intros r; cbn [analyze_loop]; [eauto|].
  cbn [fst] in Hfind.
  assert (exists r1 : TestResult,
            analyze_entry limit marker self r entry_name logs = Return r1) as [r1 ->].
  { unfold analyze_entry. rewrite Hfind. cbn [mbind outcome_bind].
    rewrite Hstatus. cbn [mbind outcome_bind].
    repeat (destruct (String.eqb (mode config_entry) _); [solve [eauto]|]).
    destruct (String.eqb (mode config_entry) "exit_codes"); [|eauto].
    now apply check_exit_codes_returns with strs. }
  cbn [mbind outcome_bind]. apply IH.
Qed.

(** ** The retry flag *)

Lemma set_status_retry (r : TestResult) (st : option TestStatus) :
  retry (_set_status r st) = retry r.
Proof. now destruct st. Qed.

Lemma add_errors_retry (r : TestResult) (errs : list string) (st : option TestStatus) :
  retry (add_errors r errs st) = retry r.
Proof.
  destruct errs as [|e errs]; [reflexivity|].
  now rewrite add_errors_cons, set_status_retry.
Qed.

Lemma check_expect_stdout_retry (r : TestResult) (logs : list string) (spec : TestSpec)
    (st : option TestStatus) :
  retry (check_expect_stdout marker r logs spec st) = retry r.
Proof.
  unfold check_expect_stdout.
  destruct (expect_stdout spec) as [[|c want]|]; try reflexivity.
  destruct (negb _); [|reflexivity]. now rewrite set_status_retry.
Qed.

Lemma exit_codes_loop_retry (exit_codes : list string) (expect_exit_codes : list Z)
    (r : TestResult) (unexpected : bool) :
  match exit_codes_loop limit r expect_exit_codes unexpected exit_codes with
  | Returned r' => retry r' = true
  | Completed r' _ => retry r' = retry r
  end.
Proof.
  revert r unexpected.
  induction exit_codes as [|code codes IH]; intros r unexpected; cbn [exit_codes_loop].
  - reflexivity.
  - destruct (Py.int limit code) as [v|]; [|reflexivity].
    destruct (bool_decide _); [|apply IH].
    specialize (IH (errors_append r ("Unexpected exit code " +:+ code)) true).
    now destruct (exit_codes_loop _ _ _ _ _).
Qed.

Lemma check_exit_codes_retry (r r' : TestResult) (exit_codes : list string)
    (expect_exit_codes : list Z) (st : option TestStatus) :
  check_exit_codes limit r exit_codes expect_exit_codes st = Return r' ->
  retry r = true -> retry r' = true.
Proof.
  assert (forall r0, check_parsed_codes limit r0 exit_codes expect_exit_codes st = Return r' ->
                     retry r0 = true -> retry r' = true) as Hparsed.
  { intros r0. unfold check_parsed_codes.
    pose proof (exit_codes_loop_retry exit_codes expect_exit_codes r0 false) as Hloop.
    destruct (exit_codes_loop limit r0 expect_exit_codes false exit_codes) as [r1|r1 [|]].
    - now intros <-%Return_inj.
    - destruct (Py.str_all limit expect_exit_codes) as [strs|]; [|discriminate].
      cbn [mbind outcome_bind]. intros <-%Return_inj. rewrite set_status_retry.
      cbn [retry errors_append]. congruence.
    - intros <-%Return_inj. congruence. }
  unfold check_exit_codes.
  destruct (bool_decide (status r = PANIC)); [now intros <-%Return_inj|].
  destruct exit_codes as [|code codes]; [|apply Hparsed].
  destruct (bool_decide _); [now intros <-%Return_inj|].
  intros Hcheck Hretry. now apply (Hparsed _ Hcheck).
Qed.

Lemma analyze_entry_retry (self : LogAnalyzer) (r r' : TestResult) (entry_name : string)
    (logs : list string) (config_entry : AnalyzeConfigEntry) :
  _get_config_entry_by_name self entry_name = Return config_entry ->
  analyze_entry limit marker self r entry_name logs = Return r' ->
  (retry r = true -> retry r' = true) /\
  (mode config_entry = "retry" ->
   retry r' = true /\ ("Retry caused by " +:+ name config_entry) ∈ errors r') /\
  (mode config_entry <> "retry" -> mode config_entry <> "exit_codes" ->
   retry r' = retry r).
Proof.
  intros Hfind. unfold analyze_entry. rewrite Hfind. cbn [mbind outcome_bind].
  destruct (entry_status config_entry) as [st|]; [|discriminate].
  cbn [mbind outcome_bind].
  destruct (String.eqb_spec (mode config_entry) "add_as_error") as [Hmode|_].
  { intros <-%Return_inj. rewrite add_errors_retry, Hmode.
    repeat split; try discriminate; auto. }
  destruct (String.eqb_spec (mode config_entry) "add_as_error_join") as [Hmode|_].
  { intros <-%Return_inj. rewrite add_errors_retry, Hmode.
    repeat split; try discriminate; auto. }
  destruct (String.eqb_spec (mode config_entry) "add_as_error_last") as [Hmode|_].
  { intros <-%Return_inj. rewrite add_errors_retry, Hmode.
    repeat split; try discriminate; auto. }
  destruct (String.eqb_spec (mode config_entry) "retry") as [Hmode|Hnot_retry].
  { intros <-%Return_inj. cbn [retry with_retry errors].
    rewrite add_errors_errors.
    repeat split; try congruence; auto.
    apply elem_of_app. right. now apply list_elem_of_singleton. }
  destruct (String.eqb_spec (mode config_entry) "expect_stdout") as [Hmode|_].
  { intros <-%Return_inj. rewrite check_expect_stdout_retry, Hmode.
    repeat split; try discriminate; auto. }
  destruct (String.eqb_spec (mode config_entry) "exit_codes") as [Hmode|_].
  { intros Hcheck. rewrite Hmode.
    split; [exact (check_exit_codes_retry _ _ _ _ _ Hcheck)|].
    split; [intros [=] | intros _ Hne; now destruct Hne]. }
  intros <-%Return_inj. split; [auto|]. split; [intros Hmode; now destruct Hnot_retry | auto].
Qed.

Lemma analyze_loop_retry_kept (self : LogAnalyzer) (log_data : list (string * list string))
    (r r' : TestResult) :
  analyze_loop limit marker self r log_data = Return r' ->
  retry r = true -> retry r' = true.
Proof.
  revert r. induction log_data as [|[entry_name logs] rest IH]; intros r;
    cbn [analyze_loop]; [now intros <-%Return_inj|].
  destruct (analyze_entry limit marker self r entry_name logs) as [r1|] eqn:Hentry;
    [|discriminate].
  cbn [mbind outcome_bind]. intros Hloop Hretry. apply (IH r1 Hloop).
  unfold analyze_entry in Hentry.
  destruct (_get_config_entry_by_name self entry_name) as [config_entry|] eqn:Hfind;
    [|discriminate].
  refine (proj1 (analyze_entry_retry self r r1 entry_name logs config_entry Hfind _) Hretry).
  unfold analyze_entry. now rewrite Hfind.
Qed.

(** X16: where the retry flag of an analysis comes from.  When a bucket of
    the log data, even an empty one, has a rule of the mode retry, the
    result asks for a retry, whatever the rules after it do, and names the
    rule among its errors.  When no bucket has a rule of the mode retry or
    exit_codes, the result does not ask for a retry. *)
Theorem analyze_retry_rules (self : LogAnalyzer) (log_data : list (string * list string))
    (ir_watchdog_status : InterruptWatchdog.Status) (r : TestResult) :
  analyze limit marker self log_data ir_watchdog_status = Return r ->
  disabled (test_spec self) = false ->
  (forall (entry_name : string) (logs : list string) (config_entry : AnalyzeConfigEntry),
     (entry_name, logs) ∈ log_data ->
     _get_config_entry_by_name self entry_name = Return config_entry ->
     mode config_entry = "retry" ->
     retry r = true /\ ("Retry caused by " +:+ name config_entry) ∈ errors r) /\
  ((forall (entry_name : string) (logs : list string) (config_entry : AnalyzeConfigEntry),
      (entry_name, logs) ∈ log_data ->
      _get_config_entry_by_name self entry_name = Return config_entry ->
      mode config_entry <> "retry" /\ mode config_entry <> "exit_codes") ->
   retry r = false).
Proof.
  intros Hanalyze Hdisabled. unfold analyze in Hanalyze. rewrite Hdisabled in Hanalyze.
  set (r0 := if bool_decide (ir_watchdog_status = InterruptWatchdog.TIMEOUT)
                && negb (expect_timeout (test_spec self))
             then _ else _) in Hanalyze.
  assert (Hstart : retry r0 = false).
  { subst r0. destruct (_ && _), (bool_decide _); now rewrite ?add_errors_retry. }
  clearbody r0. split.
  - intros entry_name logs config_entry Hin Hfind Hmode.
    clear Hstart. revert r0 Hanalyze.
    induction log_data as [|[other lines] rest IH]; intros r0 Hanalyze;
      [now apply elem_of_nil in Hin|].
    cbn [analyze_loop] in Hanalyze.
    destruct (analyze_entry limit marker self r0 other lines) as [r1|] eqn:Hentry;
      [|discriminate].
    cbn [mbind outcome_bind] in Hanalyze.
    apply elem_of_cons in Hin as [[= <- <-]|Hin].
    + destruct (analyze_entry_retry self r0 r1 entry_name logs config_entry Hfind Hentry)
        as (_ & Hrule & _).
      destruct (Hrule Hmode) as [Hretry Herror]. split.
      * now apply analyze_loop_retry_kept with self rest r1.
      * destruct (analyze_loop_errors limit marker self rest r1 r Hanalyze) as [more ->].
        apply elem_of_app. now left.
    + now apply IH with r1.
  - intros Hrules. revert r0 Hanalyze Hstart.
    induction log_data as [|[other lines] rest IH]; intros r0 Hanalyze Hstart;
      cbn [analyze_loop] in Hanalyze; [now apply Return_inj in Hanalyze as <-|].
    destruct (analyze_entry limit marker self r0 other lines) as [r1|] eqn:Hentry;
      [|discriminate].
    cbn [mbind outcome_bind] in Hanalyze.
    apply IH with r1; try assumption.
    + intros entry_name logs config_entry Hin. apply Hrules with logs. now right.
    + pose proof Hentry as Hfound. unfold analyze_entry in Hfound.
      destruct (_get_config_entry_by_name self other) as [config_entry|] eqn:Hfind;
        [|discriminate].
      destruct (analyze_entry_retry self r0 r1 other lines config_entry Hfind Hentry)
        as (_ & _ & Hkeeps).
      destruct (Hrules other lines config_entry) as [Hretry Hexit];
        [now left | assumption |].
      rewrite Hkeeps; assumption.
Qed.

(** ** The watchdog's timeout *)

Lemma analyze_loop_stays_timed_out (self : LogAnalyzer)
    (log_data : list (string * list string)) :
  Forall (fun bucket => stays_timed_out limit marker self bucket.1 bucket.2) log_data ->
  forall r : TestResult,
    status r = TIMEOUT ->
    retry r = false ->
    exists r' : TestResult,
      analyze_loop limit marker self r log_data = Return r' /\
      status r' = TIMEOUT /\ retry r' = false.
Proof.
  induction 1 as [|[entry_name logs] rest Hbucket _ IH]; intros r Hstatus Hretry;
    cbn [analyze_loop]; [eauto|].
  cbn [fst snd] in Hbucket.
  destruct (Hbucket r Hstatus Hretry) as (r1 & -> & Hstatus1 & Hretry1).
  cbn [mbind outcome_bind]. now apply IH.
Qed.

(** A rule that sets nothing leaves a run that timed out as it is. *)
Lemma sets_nothing_stays_timed_out (self : LogAnalyzer) (entry_name : string)
    (logs : list string) :
  sets_nothing limit marker self entry_name logs ->
  stays_timed_out limit marker self entry_name logs.
Proof.
  intros Hnothing r Hstatus Hretry.
  destruct (Hnothing r) as (r' & Hentry & Hstatus' & Hretry').
  exists r'. repeat split; congruence.
Qed.

(** So does the rule of the exit codes when there is no exit code. *)
Lemma no_exit_code_stays_timed_out (self : LogAnalyzer) (entry_name : string)
    (config_entry : AnalyzeConfigEntry) (st : option TestStatus) (r : TestResult) :
  _get_config_entry_by_name self entry_name = Return config_entry ->
  entry_status config_entry = Return st ->
  mode config_entry = "exit_codes" ->
  status r = TIMEOUT ->
  analyze_entry limit marker self r entry_name []
  = Return {| status := TIMEOUT; errors := errors r ++ ["Missing exit code!"];
              retry := retry r |}.
Proof.
  intros Hfind Hentry Hmode Hstatus. unfold analyze_entry.
  rewrite Hfind. cbn [mbind outcome_bind]. rewrite Hentry. cbn [mbind outcome_bind].
  rewrite Hmode. cbn [String.eqb Ascii.eqb Bool.eqb].
  destruct r as [s e r]. cbn [status] in Hstatus. subst s. reflexivity.
Qed.

(** X17: a timeout of the watchdog.  For a test that is not disabled and
    expects the timeout, the analysis is that of a run without a timeout.
    For one that does not expect it, the rules start, whatever the log
    data, from the status TIMEOUT, the error "Test execution timeout" and
    no retry flag; with no bucket that is the result.  When every rule
    leaves a run that timed out as it is (applied to a result with the
    status TIMEOUT and no retry flag it returns such a result), the result
    has the status TIMEOUT, errors that start with that error, and no
    retry.  A rule that sets nothing is such a rule, and so is the rule of
    the exit codes over an empty bucket, whatever status it sets: a run
    that timed out and has that bucket only ends with the status TIMEOUT
    and the errors "Test execution timeout" and "Missing exit code!". *)
Theorem analyze_timeout (self : LogAnalyzer) (log_data : list (string * list string)) :
  disabled (test_spec self) = false ->
  (expect_timeout (test_spec self) = true ->
   analyze limit marker self log_data InterruptWatchdog.TIMEOUT
   = analyze limit marker self log_data InterruptWatchdog.FOUND) /\
  (expect_timeout (test_spec self) = false ->
   analyze limit marker self log_data InterruptWatchdog.TIMEOUT
   = analyze_loop limit marker self
       {| status := TIMEOUT; errors := ["Test execution timeout"]; retry := false |}
       log_data /\
   analyze limit marker self [] InterruptWatchdog.TIMEOUT
   = Return {| status := TIMEOUT; errors := ["Test execution timeout"]; retry := false |} /\
   (Forall (fun bucket => stays_timed_out limit marker self bucket.1 bucket.2) log_data ->
    exists more : list string,
      analyze limit marker self log_data InterruptWatchdog.TIMEOUT
      = Return {| status := TIMEOUT; errors := "Test execution timeout" :: more;
                  retry := false |}) /\
   (forall (entry_name : string) (logs : list string),
      sets_nothing limit marker self entry_name logs ->
      stays_timed_out limit marker self entry_name logs) /\
   (forall (entry_name : string) (config_entry : AnalyzeConfigEntry)
           (st : option TestStatus),
      _get_config_entry_by_name self entry_name = Return config_entry ->
      entry_status config_entry = Return st ->
      mode config_entry = "exit_codes" ->
      stays_timed_out limit marker self entry_name [] /\
      analyze limit marker self [(entry_name, [])] InterruptWatchdog.TIMEOUT
      = Return {| status := TIMEOUT;
                  errors := ["Test execution timeout"; "Missing exit code!"];
                  retry := false |})).
Proof.
  intros Hdisabled. split; intros Hexpect.
  - unfold analyze. now rewrite Hdisabled, Hexpect.
  - assert (Hstart : forall data,
              analyze limit marker self data InterruptWatchdog.TIMEOUT
              = analyze_loop limit marker self
                  {| status := TIMEOUT; errors := ["Test execution timeout"];
                     retry := false |} data).
    { intros data. unfold analyze. now rewrite Hdisabled, Hexpect. }
    split; [apply Hstart|]. split; [now rewrite Hstart|]. split; [|split].
    + intros Hrules. rewrite Hstart.
      destruct (analyze_loop_stays_timed_out self log_data Hrules
                  {| status := TIMEOUT; errors := ["Test execution timeout"];
                     retry := false |} eq_refl eq_refl)
        as (r' & Hloop & Hstatus & Hretry).
      pose proof (analyze_loop_errors limit marker self log_data _ _ Hloop) as [more Hmore].
      exists more. rewrite Hloop. f_equal.
      destruct r' as [s e r]. cbn in Hstatus, Hretry, Hmore. now subst.
    + apply sets_nothing_stays_timed_out.
    + intros entry_name config_entry st Hfind Hentry Hmode. split.
      * intros r Hstatus Hretry. eexists. split;
          [now apply no_exit_code_stays_timed_out with config_entry st|].
        now split.
      * rewrite Hstart. cbn [analyze_loop].
        rewrite (no_exit_code_stays_timed_out self entry_name config_entry st
                   {| status := TIMEOUT; errors := ["Test execution timeout"];
                      retry := false |} Hfind Hentry Hmode eq_refl).
        reflexivity.
Qed.

End AnalyzerRuns.

(** * The analysis on concrete runs *)

(** The log data holds a bucket "syscall", for which there is no rule. *)
Lemma analyze_needs_rules_witness :
  exists e : exn,
    analyze 4300 "##EXPECT##" demo_analyzer [("panic", []); ("syscall", ["exit"])]
      InterruptWatchdog.FOUND = Raise e.
Proof.
  apply (analyze_needs_rules 4300 "##EXPECT##" demo_analyzer
           [("panic", []); ("syscall", ["exit"])] InterruptWatchdog.FOUND
           "syscall" ["exit"]).
  - reflexivity.
  - right. left.
  - left. repeat constructor; discriminate.
Defined.

(** A panic and the exit code 1: every bucket has its rule. *)
Lemma analyze_returns_witness :
  exists r : TestResult,
    analyze 4300 "##EXPECT##" demo_analyzer
      [("panic", ["KERNEL PANIC"]); ("exit_codes", ["1"])] InterruptWatchdog.FOUND
    = Return r.
Proof.
  apply (analyze_returns 4300 "##EXPECT##" demo_analyzer
           [("panic", ["KERNEL PANIC"]); ("exit_codes", ["1"])] InterruptWatchdog.FOUND
           ["0"]).
  - repeat constructor; eexists; eexists; split; reflexivity.
  - reflexivity.
Defined.

(** The bucket of the retry rule is there, and empty. *)
Lemma analyze_retry_rules_witness :
  retry {| status := SUCCESS; errors := ["Retry caused by qemu_died"]; retry := true |}
  = true /\
  "Retry caused by qemu_died"
  ∈ errors {| status := SUCCESS; errors := ["Retry caused by qemu_died"]; retry := true |}.
Proof.
  apply (proj1 (analyze_retry_rules 4300 "##EXPECT##" demo_analyzer [("qemu_died", [])]
                  InterruptWatchdog.FOUND
                  {| status := SUCCESS; errors := ["Retry caused by qemu_died"];
                     retry := true |} eq_refl eq_refl)
           "qemu_died" [] {| name := "qemu_died"; mode := "retry"; set_status := None |}).
  - left.
  - reflexivity.
  - reflexivity.
Defined.

(** A timeout that the test does not expect; the machine wrote no exit
    code. *)
Lemma analyze_timeout_witness :
  analyze 4300 "##EXPECT##" demo_analyzer [("exit_codes", [])] InterruptWatchdog.TIMEOUT
  = Return {| status := TIMEOUT;
              errors := ["Test execution timeout"; "Missing exit code!"];
              retry := false |}.
Proof.
  apply (proj2 (analyze_timeout 4300 "##EXPECT##" demo_analyzer [("exit_codes", [])]
                  eq_refl) eq_refl)
    with {| name := "exit_codes"; mode := "exit_codes"; set_status := Some "FAILED" |}
         (Some FAILED); reflexivity.
Defined.
